(** * BulkMessageForm: the bulk dispatch sequencer of the WhatsApp web frontend

    A shallow embedding of [src/pages/BulkMessageForm.jsx] and the properties
    of its template renderer ([replacePlaceholders]), dispatch client
    ([sendMessage]) and bulk sequencer ([handleBulkSend]).

    Conventions of the embedding:
    - a JavaScript string is the list of its UTF-16 code units ([jsstring]);
    - a parsed row (a plain object produced by the CSV or spreadsheet parser)
      is the finite map of its own properties ([gmap jsstring value]); a
      property read falls back to [Object.prototype] for names that the row
      does not have;
    - the asynchronous handler is a computation in a small monad that threads
      the outside world, may throw, and emits the ordered list of the effects
      it performs (state setter calls, dispatches, network calls, timers,
      alerts); console output is not recorded;
    - React state is the fold of the setter calls over the state the handler
      closed over. *)

From Stdlib Require Import ZArith NArith List String Ascii Lia Bool.
From Stdlib Require Import DecimalString.
From stdpp Require Import gmap.
Import ListNotations.

Local Open Scope N_scope.
Local Open Scope list_scope.

(** ** JavaScript strings *)

Module JS.

Definition jsstring := list N.

(** Code units of an ASCII literal. *)
Fixpoint str (s : string) : list N :=
  match s with
  | EmptyString => []
  | String c s' => N_of_ascii c :: str s'
  end.

(** [WhiteSpace] and [LineTerminator] code points of ECMAScript, the ones
    [String.prototype.trim] strips. *)
Definition isWhiteSpace (c : N) : bool :=
  ((9 <=? c) && (c <=? 13)) || (c =? 32) || (c =? 160) || (c =? 5760)
  || ((8192 <=? c) && (c <=? 8202)) || (c =? 8232) || (c =? 8233)
  || (c =? 8239) || (c =? 8287) || (c =? 12288) || (c =? 65279).

Fixpoint trimStart (s : list N) : list N :=
  match s with
  | [] => []
  | c :: s' => if isWhiteSpace c then trimStart s' else s
  end.

Definition trimEnd (s : list N) : list N := rev (trimStart (rev s)).

(** [s.trim()] *)
Definition trim (s : list N) : list N := trimEnd (trimStart s).

(** Truthiness of a string: non-empty. *)
Definition truthy (s : list N) : bool :=
  match s with [] => false | _ => true end.

(** [s.toLowerCase()] on the letters A-Z. The source only compares the result
    with the ASCII words csv, xlsx and xls, whose letters have no other
    upper-case form. *)
Definition lowerUnit (c : N) : N :=
  if (65 <=? c) && (c <=? 90) then c + 32 else c.

Definition toLowerCase (s : list N) : list N := map lowerUnit s.

(** [s.split(sep)] for a one-unit separator: never empty. *)
Fixpoint split (sep : N) (s : list N) : list (list N) :=
  match s with
  | [] => [[]]
  | c :: s' =>
      if c =? sep then [] :: split sep s'
      else match split sep s' with
           | [] => [[c]]
           | p :: ps => (c :: p) :: ps
           end
  end.

(** [a.pop()], the value it returns ([undefined] on an empty array). *)
Definition pop {A} (a : list A) : option A := last a.

(** [a.join(sep)] *)
Fixpoint join (sep : list N) (a : list (list N)) : list N :=
  match a with
  | [] => []
  | [x] => x
  | x :: a' => x ++ sep ++ join sep a'
  end.

(** Decimal form of an integer, as [Number.prototype.toString] prints the
    integers below 10^21 in absolute value: the safe integers of a cell and
    the counts of rows (the length of an array is below 2^32). *)
Definition intToString (z : Z) : list N :=
  str (NilZero.string_of_int (Z.to_int z)).

(** [\w] of a regular expression without the unicode and ignoreCase flags. *)
Definition isWord (c : N) : bool :=
  ((48 <=? c) && (c <=? 57)) || ((65 <=? c) && (c <=? 90)) || (c =? 95)
  || ((97 <=? c) && (c <=? 122)).

Definition lbrace : N := 123.
Definition rbrace : N := 125.

End JS.
Import JS.

(** ** Values and rows *)

(** A safe integer: an integer every double holds exactly, below 2^53 in
    absolute value. *)
Record SafeInteger := {
  int_value : Z;
  int_safe : (Z.abs int_value <? 9007199254740992)%Z = true
}.

(** The values a property of a row can hold: strings (CSV, text cells), safe
    integers (numeric cells), booleans, and any other value (a fractional, a
    large or a special number, an array such as Papa's [__parsed_extra], a
    Date, a function), which is given by the text its [toString()] returns,
    the only thing the component asks of it; [VUndefined] is what reading a
    missing property gives. *)
Inductive value :=
| VUndefined
| VNull
| VStr (s : list N)
| VNum (z : SafeInteger)
| VBool (b : bool)
| VOther (text : list N).

(** A row is a plain object: the map of its own properties, with
    [Object.prototype] behind it. *)
Abbreviation Row := (gmap (list N) value).

(** The text of a built-in function, as V8 and JavaScriptCore print it
    (SpiderMonkey lays the same words out over three lines). *)
Definition nativeFunctionText (name : list N) : list N :=
  str "function " ++ name ++ str "() { [native code] }".

Definition nativeFunction (name : string) : list N * value :=
  (str name, VOther (nativeFunctionText (str name))).

(** The properties of [Object.prototype]: its functions, [constructor] (the
    function [Object]) and the accessor [__proto__], which gives the
    prototype itself. *)
Definition objectPrototype : list (list N * value) :=
  [ (str "constructor", VOther (nativeFunctionText (str "Object")));
    nativeFunction "__defineGetter__"; nativeFunction "__defineSetter__";
    nativeFunction "hasOwnProperty"; nativeFunction "__lookupGetter__";
    nativeFunction "__lookupSetter__"; nativeFunction "isPrototypeOf";
    nativeFunction "propertyIsEnumerable"; nativeFunction "toString";
    nativeFunction "valueOf"; nativeFunction "toLocaleString";
    (str "__proto__", VOther (str "[object Object]")) ].

(** What a property read finds on the prototype; [VUndefined] when the name
    is not there. *)
Definition inherited (key : list N) : value :=
  match List.find (fun p => bool_decide (fst p = key)) objectPrototype with
  | Some p => snd p
  | None => VUndefined
  end.

(** [row[key]]: the row's own property, else the inherited one. *)
Definition prop (row : Row) (key : list N) : value :=
  match row !! key with
  | Some v => v
  | None => inherited key
  end.

(** What a thrown [Error] carries: its [message]. *)
Inductive outcome (A : Type) :=
| Ok (a : A)
| Throw (message : list N).
Arguments Ok {A} a.
Arguments Throw {A} message.

(** Message of the [TypeError] raised by a property access on [undefined] or
    [null]; engines word it differently, the model fixes one wording. *)
Definition typeErrorMessage : list N :=
  str "Cannot read properties of undefined (reading 'toString')".

(** [v.toString()] *)
Definition toString (v : value) : outcome (list N) :=
  match v with
  | VUndefined | VNull => Throw typeErrorMessage
  | VStr s => Ok s
  | VNum z => Ok (intToString (int_value z))
  | VBool true => Ok (str "true")
  | VBool false => Ok (str "false")
  | VOther text => Ok text
  end.

(** [v?.toString()]: [None] is [undefined], the chain short-circuited. *)
Definition optToString (v : value) : option (list N) :=
  match v with
  | VUndefined | VNull => None
  | _ => match toString v with Ok s => Some s | Throw _ => None end
  end.

(** ** Template renderer *)

(** Greedy [\w*] at the head of [s]: the longest run of word units and what
    follows it. *)
Fixpoint wordRun (s : list N) : list N * list N :=
  match s with
  | [] => ([], [])
  | c :: s' =>
      if isWord c then let (w, r) := wordRun s' in (c :: w, r) else ([], s)
  end.

(** The pattern [{(\w+)}] tried at the head of [s]; the result is capture
    group 1. A shorter run than the greedy one cannot be followed by the
    closing brace, so backtracking never finds another match. *)
Definition matchAt (s : list N) : option (list N) :=
  match s with
  | [] => None
  | c :: s' =>
      if c =? lbrace then
        match wordRun s' with
        | (w, d :: _) => if truthy w && (d =? rbrace) then Some w else None
        | (_, []) => None
        end
      else None
  end.

(** [s.replace(/{(\w+)}/g, (_, key) => fn(key))]: scan from the left; at a
    match, emit the replacement verbatim and resume after the match ([skip]
    counts the units still covered by the match just replaced). *)
Fixpoint replaceFrom (fn : list N -> list N) (skip : nat) (s : list N)
  : list N :=
  match s with
  | [] => []
  | c :: s' =>
      match skip with
      | S k => replaceFrom fn k s'
      | O =>
          match matchAt s with
          | Some key => fn key ++ replaceFrom fn (S (length key)) s'
          | None => c :: replaceFrom fn 0 s'
          end
      end
  end.

(** [data[key]?.toString() || ''] *)
Definition fieldText (data : Row) (key : list N) : list N :=
  match optToString (prop data key) with
  | Some s => if truthy s then s else []
  | None => []
  end.

Definition replacePlaceholders (template : list N) (data : Row) : list N :=
  replaceFrom (fieldText data) 0 template.

(** ** Component state and effects *)

Record File := { name : list N; content : list N }.

Record Progress := { current : nat; total : nat }.

(** The five [useState] cells of the component. *)
Record State := {
  inputFile : option File;
  bulkMessage : list N;
  sending : bool;
  delaySeconds : Z;
  progress : Progress
}.

Definition initialState : State :=
  {| inputFile := None; bulkMessage := []; sending := false;
     delaySeconds := 3; progress := {| current := 0; total := 0 |} |}.

(** The props; [None] is a prop that was not passed. *)
Record Props := {
  sessionId : option (list N);
  accessToken : option (list N)
}.

(** Truthiness of a prop, and its string form where one is needed. *)
Definition truthyProp (p : option (list N)) : bool :=
  match p with Some s => truthy s | None => false end.

Definition propString (p : option (list N)) : list N :=
  match p with Some s => s | None => str "undefined" end.

(** The request handed to [fetch]: the parsed URL, its query parameters in
    the order appended, and the payload before [JSON.stringify]. *)
Record Request := {
  url : list N;
  searchParams : list (list N * list N);
  method : list N;
  headers : list (list N * list N);
  recipients : list (list N * list N)
}.

(** What the handler reads of a response: [ok], and the result of
    [text()], which rejects when the body cannot be read. *)
Record Response := { ok : bool; text : outcome (list N) }.

(** [{ success, error }] *)
Record SendResult := { success : bool; error : option (list N) }.

(** The effects of the handlers, in the order performed. [Dispatch] marks
    the call of [sendMessage] and [Returned] its return. *)
Inductive event :=
| SetSending (b : bool)
| SetInputFile (f : option File)
| SetBulkMessage (s : list N)
| SetDelaySeconds (z : Z)
| SetProgress (p : Progress)
| Dispatch (number message : list N)
| Returned (result : SendResult)
| Fetch (r : Request)
| Sleep (ms : Z)
| Alert (message : list N).

(** React state after the setter calls of a log. *)
Definition applyEvent (st : State) (e : event) : State :=
  match e with
  | SetSending b =>
      {| inputFile := inputFile st; bulkMessage := bulkMessage st;
         sending := b; delaySeconds := delaySeconds st;
         progress := progress st |}
  | SetInputFile f =>
      {| inputFile := f; bulkMessage := bulkMessage st;
         sending := sending st; delaySeconds := delaySeconds st;
         progress := progress st |}
  | SetBulkMessage s =>
      {| inputFile := inputFile st; bulkMessage := s;
         sending := sending st; delaySeconds := delaySeconds st;
         progress := progress st |}
  | SetDelaySeconds z =>
      {| inputFile := inputFile st; bulkMessage := bulkMessage st;
         sending := sending st; delaySeconds := z;
         progress := progress st |}
  | SetProgress p =>
      {| inputFile := inputFile st; bulkMessage := bulkMessage st;
         sending := sending st; delaySeconds := delaySeconds st;
         progress := p |}
  | Dispatch _ _ | Returned _ | Fetch _ | Sleep _ | Alert _ => st
  end.

Definition reduce (st : State) (log : list event) : State :=
  fold_left applyEvent log st.

(** ** The handler monad: world, exceptions, effect log *)

Module Handler.

Definition M (World A : Type) : Type :=
  World -> outcome A * World * list event.

Section Ops.
Context {World : Type}.

Definition ret {A} (a : A) : M World A := fun w => (Ok a, w, []).

Definition bind {A B} (m : M World A) (k : A -> M World B) : M World B :=
  fun w =>
    match m w with
    | (Ok a, w', l) => let '(r, w'', l') := k a w' in (r, w'', l ++ l')
    | (Throw e, w', l) => (Throw e, w', l)
    end.

Definition throw {A} (message : list N) : M World A :=
  fun w => (Throw message, w, []).

Definition lift {A} (o : outcome A) : M World A := fun w => (o, w, []).

Definition emit (e : event) : M World unit := fun w => (Ok tt, w, [e]).

(** [try { m } catch (error) { h(error.message) }] *)
Definition try_catch {A} (m : M World A) (h : list N -> M World A)
  : M World A :=
  fun w =>
    match m w with
    | (Ok a, w', l) => (Ok a, w', l)
    | (Throw e, w', l) => let '(r, w'', l') := h e w' in (r, w'', l ++ l')
    end.

Definition resultOf {A} (r : outcome A * World * list event) : outcome A :=
  fst (fst r).
Definition worldOf {A} (r : outcome A * World * list event) : World :=
  snd (fst r).
Definition logOf {A} (r : outcome A * World * list event) : list event :=
  snd r.
End Ops.

End Handler.
Import Handler.

Declare Scope handler_scope.
Delimit Scope handler_scope with handler.
Notation "x <- m ;; k" := (bind m (fun x => k))
  (at level 100, m at next level, right associativity) : handler_scope.
Notation "m ;; k" := (bind m (fun _ => k))
  (at level 100, right associativity) : handler_scope.
Local Open Scope handler_scope.

(** ** The component *)

(** The texts of the two alerts raised before a run. *)
Definition requiredText : list N :=
  str "Session ID, file, access token, and message are required!".
Definition unsupportedText : list N :=
  str "Unsupported file type! Please upload a .csv, .xlsx, or .xls file.".

Section Component.
Context {World : Type}.

(** [import.meta.env.VITE_API_URL], as the template literal renders it. *)
Variable VITE_API_URL : list N.
(** [new URL(url)]: the parsed address, or the [TypeError] it throws. *)
Variable new_URL : list N -> outcome (list N).
(** [fetch]: resolves with a response or rejects; acts on the world. *)
Variable fetch : Request -> World -> outcome Response * World.
(** What becomes of the world while the handler sleeps for [ms]
    milliseconds. *)
Variable elapse : Z -> World -> World.
(** The rows [Papa.parse] hands to [complete] and the rows
    [XLSX.utils.sheet_to_json] gives for the first sheet; [None] when the
    parser never calls back. *)
Variable Papa_parse : File -> option (list Row).
Variable XLSX_parse : File -> option (list Row).

Variable props : Props.

Definition alert (message : list N) : M World unit := emit (Alert message).
Definition setSending (b : bool) : M World unit := emit (SetSending b).
Definition setInputFile (f : option File) : M World unit :=
  emit (SetInputFile f).
Definition setBulkMessage (s : list N) : M World unit :=
  emit (SetBulkMessage s).
Definition setProgress (p : Progress) : M World unit :=
  emit (SetProgress p).
(** [await sleep(ms)] *)
Definition sleep (ms : Z) : M World unit :=
  fun w => (Ok tt, elapse ms w, [Sleep ms]).
(** [await fetch(fullUrl.href, {...})] *)
Definition doFetch (r : Request) : M World Response :=
  fun w => let (o, w') := fetch r w in (o, w', [Fetch r]).

(** [parseFile(file, callback)] *)
Definition parseFile (file : File) (callback : list Row -> M World unit)
  : M World unit :=
  seg <- lift (match pop (split 46 (name file)) with
               | Some x => Ok x
               | None => Throw typeErrorMessage
               end);;
  let ext := toLowerCase seg in
  if bool_decide (ext = str "csv") then
    match Papa_parse file with
    | Some data => callback data
    | None => ret tt
    end
  else if bool_decide (ext = str "xlsx") || bool_decide (ext = str "xls")
  then
    match XLSX_parse file with
    | Some data => callback data
    | None => ret tt
    end
  else alert unsupportedText.

(** [sendMessage(number, message)] *)
Definition sendMessage (number message : list N) : M World SendResult :=
  emit (Dispatch number message);;
  result <- try_catch
    (let url := VITE_API_URL ++ str "/api/bulksend" in
     let payload := [(number, message)] in
     fullUrl <- lift (new_URL url);;
     let params :=
       [(str "instance_id", propString (sessionId props));
        (str "access_token", propString (accessToken props))] in
     response <- doFetch
       {| url := fullUrl; searchParams := params; method := str "POST";
          headers := [(str "Content-Type", str "application/json")];
          recipients := payload |};;
     resText <- lift (text response);;
     if negb (ok response) then
       throw (if truthy resText then resText else str "Unknown error")
     else ret {| success := true; error := None |})
    (fun message => ret {| success := false; error := Some message |});;
  emit (Returned result);;
  ret result.

(** [row.number?.toString().trim()]; [None] is [undefined]. *)
Definition numberOf (row : Row) : option (list N) :=
  match optToString (prop row (str "number")) with
  | Some s => Some (trim s)
  | None => None
  end.

(** The filter callback [row => row.number?.toString().trim()], as the
    condition [filter] makes of it. *)
Definition validRow (row : Row) : bool :=
  match numberOf row with
  | Some s => truthy s
  | None => false
  end.

(** The [for] loop of the callback, entered at index [i] with [rows] the
    rows from [validRows[i]] on; [totalMessages] is [validRows.length]. *)
Fixpoint sendLoop (template : list N) (delay : Z) (validRows : list Row)
    (rows : list Row) (i : nat) (successful : nat) (failed : list (list N))
  : M World (nat * list (list N)) :=
  match rows with
  | [] => ret (successful, failed)
  | row :: rows' =>
      s <- lift (toString (prop row (str "number")));;
      let number := trim s in
      let personalizedMessage := replacePlaceholders template row in
      setProgress {| current := i + 1; total := length validRows |};;
      result <- sendMessage number personalizedMessage;;
      let successful' := if success result then S successful else successful in
      let failed' := if success result then failed else failed ++ [number] in
      (if (Z.of_nat i <? Z.of_nat (length validRows) - 1)%Z
       then sleep (delay * 1000)
       else ret tt);;
      sendLoop template delay validRows rows' (S i) successful' failed'
  end.

(** The summary shown when the loop is over. *)
Definition summaryText (successful : nat) (failed : list (list N)) : list N :=
  if (0 <? length failed)%nat then
    [9989] ++ str " Successfully sent: " ++ intToString (Z.of_nat successful)
    ++ str ", " ++ [10060] ++ str " Failed: "
    ++ intToString (Z.of_nat (length failed))
    ++ [10] ++ str "Failed numbers: " ++ join (str ", ") failed
  else
    [9989] ++ str " All messages sent successfully to "
    ++ intToString (Z.of_nat successful) ++ str " contacts!".

(** The callback [handleBulkSend] passes to [parseFile]; [st] is the state
    the handler closed over. *)
Definition bulkSendCallback (st : State) (data : list Row) : M World unit :=
  let validRows := List.filter validRow data in
  let totalMessages := length validRows in
  setProgress {| current := 0; total := totalMessages |};;
  r <- sendLoop (bulkMessage st) (delaySeconds st) validRows validRows 0 0 [];;
  setSending false;;
  setInputFile None;;
  setBulkMessage [];;
  setProgress {| current := 0; total := 0 |};;
  alert (summaryText (fst r) (snd r)).

(** [handleBulkSend()] *)
Definition handleBulkSend (st : State) : M World unit :=
  if negb (truthyProp (sessionId props))
     || negb (bool_decide (is_Some (inputFile st)))
     || negb (truthyProp (accessToken props))
     || negb (truthy (trim (bulkMessage st)))
  then alert requiredText
  else
    setSending true;;
    match inputFile st with
    | Some file => parseFile file (bulkSendCallback st)
    | None => throw typeErrorMessage
    end.

(** The change handlers of the three inputs. *)
Definition handleFileChange (file : option File) : M World unit :=
  setInputFile file;;
  match file with
  | Some _ => ret tt
  | None => throw typeErrorMessage
  end.

Definition handleMessageChange (v : list N) : M World unit :=
  setBulkMessage v.

(** [setDelaySeconds(parseInt(e.target.value) || 3)]; [None] is [NaN]. *)
Definition handleDelayChange (parsed : option Z) : M World unit :=
  emit (SetDelaySeconds
          match parsed with
          | Some z => if (z =? 0)%Z then 3%Z else z
          | None => 3%Z
          end).

End Component.

(** ** Vocabulary of the properties *)

(** The placeholder token [{name}]. *)
Definition token (name : list N) : list N := lbrace :: name ++ [rbrace].

(** A placeholder name: one or more word units. *)
Definition validName (name : list N) : Prop :=
  name <> [] /\ Forall (fun c => isWord c = true) name.

(** [s] contains a placeholder token somewhere. *)
Definition hasPlaceholder (s : list N) : Prop :=
  exists pre name post, validName name /\ s = pre ++ token name ++ post.

(** Decision procedure for the absence of tokens: the pattern matches at no
    position. *)
Fixpoint noPlaceholder (s : list N) : bool :=
  match s with
  | [] => true
  | _ :: s' => match matchAt s with Some _ => false | None => noPlaceholder s' end
  end.

(** The [number] field is non-empty after trimming: the row has the field,
    with a value that has a string form whose trimmed text is not empty. *)
Definition hasNumber (row : Row) : Prop :=
  exists v s, row !! str "number" = Some v /\ toString v = Ok s /\ trim s <> [].

Definition isProgress (e : event) : bool :=
  match e with SetProgress _ => true | _ => false end.
Definition isDispatch (e : event) : bool :=
  match e with Dispatch _ _ => true | _ => false end.
Definition isFetch (e : event) : bool :=
  match e with Fetch _ => true | _ => false end.
Definition isSleep (e : event) : bool :=
  match e with Sleep _ => true | _ => false end.
Definition isSetter (e : event) : bool :=
  match e with
  | SetSending _ | SetInputFile _ | SetBulkMessage _ | SetDelaySeconds _
  | SetProgress _ => true
  | _ => false
  end.

(** [x1; sep; x2; sep; ...; xn]: a separator between neighbours only. *)
Fixpoint intersperse {A} (sep : A) (l : list A) : list A :=
  match l with
  | [] => []
  | [x] => [x]
  | x :: l' => x :: sep :: intersperse sep l'
  end.

(** The trimmed number of a row, empty when the row has none. *)
Definition rowNumber (row : Row) : list N := default [] (numberOf row).

(** The dispatch of a row under a template: its trimmed number and its
    rendered message. *)
Definition dispatchOf (template : list N) (row : Row) : event :=
  Dispatch (rowNumber row) (replacePlaceholders template row).

(** The delay after the row of index [i] out of [len]. *)
Definition sleepIf (delay : Z) (len i : nat) : list event :=
  if (Z.of_nat i <? Z.of_nat len - 1)%Z then [Sleep (delay * 1000)] else [].

(** Progress observation and dispatch of each row, from index [i] on. *)
Fixpoint attemptsFrom (template : list N) (len i : nat) (rows : list Row)
  : list event :=
  match rows with
  | [] => []
  | row :: rows' =>
      SetProgress {| current := i + 1; total := len |}
      :: dispatchOf template row :: attemptsFrom template len (S i) rows'
  end.

(** Shape of the log of the loop over [rows] from index [i]: per row the
    progress update, the dispatch with its network call and its result, and
    the delay. *)
Inductive LoopLog (template : list N) (delay : Z) (len : nat)
  : nat -> list Row -> list event -> Prop :=
| LoopLog_nil i : LoopLog template delay len i [] []
| LoopLog_cons i row rows fl res l :
    Forall (fun e => isFetch e = true) fl ->
    LoopLog template delay len (S i) rows l ->
    LoopLog template delay len i (row :: rows)
      (SetProgress {| current := i + 1; total := len |}
       :: (dispatchOf template row :: fl ++ [Returned res])
       ++ sleepIf delay len i ++ l).

(** The dispatches of a log, each with the result returned for it:
    [pending] is the number of the dispatch that has not returned yet. *)
Fixpoint outcomesOf (pending : option (list N)) (log : list event)
  : list (list N * SendResult) :=
  match log with
  | [] => []
  | Dispatch number _ :: log' => outcomesOf (Some number) log'
  | Returned res :: log' =>
      match pending with
      | Some number => (number, res) :: outcomesOf None log'
      | None => outcomesOf None log'
      end
  | _ :: log' => outcomesOf pending log'
  end.

Definition succeededIn (p : list N * SendResult) : bool := success (snd p).
Definition failedIn (p : list N * SendResult) : bool := negb (success (snd p)).

(** The state updates and the report that close a run. *)
Definition closing (summary : list N) : list event :=
  [SetSending false; SetInputFile None; SetBulkMessage [];
   SetProgress {| current := 0; total := 0 |}; Alert summary].

(** The call of the remote interface: POST to the endpoint with the instance
    id and the access token as query parameters, and one recipient. *)
Definition bulksendRequest (props : Props) (endpoint number message : list N)
  : Request :=
  {| url := endpoint;
     searchParams := [(str "instance_id", propString (sessionId props));
                      (str "access_token", propString (accessToken props))];
     method := str "POST";
     headers := [(str "Content-Type", str "application/json")];
     recipients := [(number, message)] |}.

Definition failure (reason : list N) : SendResult :=
  {| success := false; error := Some reason |}.
Definition succeeded : SendResult := {| success := true; error := None |}.

(** The extension [parseFile] decides on. *)
Definition extensionOf (file : File) : list N :=
  toLowerCase (default [] (pop (split 46 (name file)))).

(** The reading of the progress observations of a run as the updates with
    [current] 1, 2, ..., [total], one per kept row, and no other. *)
Definition progressObservedTotalTimes : Prop :=
  forall (World : Type) (api : list N) (new_URL : list N -> outcome (list N))
         (fetch : Request -> World -> outcome Response * World)
         (elapse : Z -> World -> World) (props : Props)
         (st : State) (data : list Row) (w : World),
    List.filter isProgress
      (logOf (bulkSendCallback api new_URL fetch elapse props st data w))
    = map (fun k => SetProgress
                      {| current := k;
                         total := length (List.filter validRow data) |})
        (seq 1 (length (List.filter validRow data))).

(** The reading of the failure reason as the response body whenever the
    remote answers with a status that is not ok. *)
Definition failureReasonIsBody : Prop :=
  forall (World : Type) (api : list N) (new_URL : list N -> outcome (list N))
         (fetch : Request -> World -> outcome Response * World)
         (props : Props) (number message : list N) (w : World)
         (u : list N) (resp : Response) (body : list N),
    new_URL (api ++ str "/api/bulksend") = Ok u ->
    fst (fetch (bulksendRequest props u number message) w) = Ok resp ->
    text resp = Ok body ->
    ok resp = false ->
    resultOf (sendMessage api new_URL fetch props number message w)
    = Ok (failure body).

(** A scripted network for examples: the world is the list of the answers
    still to come; an exhausted script rejects. *)
Definition scripted (r : Request) (w : list (outcome Response))
  : outcome Response * list (outcome Response) :=
  match w with
  | x :: w' => (x, w')
  | [] => (Throw (str "Failed to fetch"), [])
  end.

(** ** Example data *)

(** The rows of the worked example: Ann, Bob without a number, Cid. *)
Definition ann : Row :=
  {[ str "number" := VStr (str "111"); str "name" := VStr (str "Ann") ]}.
Definition bob : Row :=
  {[ str "number" := VStr []; str "name" := VStr (str "Bob") ]}.
Definition cid : Row :=
  {[ str "number" := VStr (str "222"); str "name" := VStr (str "Cid") ]}.

(** A row from a spreadsheet, with the number in a numeric cell. *)
Definition eve : Row :=
  {[ str "number" :=
       VNum {| int_value := 919876543210; int_safe := eq_refl |};
     str "name" := VStr (str "Eve") ]}.

Definition exampleProps : Props :=
  {| sessionId := Some (str "s1"); accessToken := Some (str "tok") |}.

Definition exampleState (fileName : string) : State :=
  {| inputFile := Some {| name := str fileName; content := [] |};
     bulkMessage := str "Hi {name}"; sending := false; delaySeconds := 2;
     progress := {| current := 0; total := 0 |} |}.

(** The callback of the example over a scripted network. *)
Definition exampleRun (answers : list (outcome Response))
  : outcome unit * list (outcome Response) * list event :=
  bulkSendCallback (str "https://api.example") Ok scripted (fun _ w => w)
    exampleProps (exampleState "contacts.csv") [ann; bob; cid] answers.

Definition answerOk : outcome Response := Ok {| ok := true; text := Ok [] |}.
Definition answerTimeout : outcome Response := Throw (str "timeout").
Definition answerEmptyError : outcome Response :=
  Ok {| ok := false; text := Ok [] |}.

(** ** The form and its use *)

(** [disabled={sending || !bulkMessage}] of the send button. *)
Definition buttonDisabled (st : State) : bool :=
  sending st || negb (truthy (bulkMessage st)).

(** What the operator does with the form: pick a file (or cancel the
    picker), edit the template, edit the delay ([parsed] is what [parseInt]
    makes of the field, [None] for [NaN]), click the button. *)
Inductive action :=
| ChooseFile (file : option File)
| TypeMessage (v : list N)
| TypeDelay (parsed : option Z)
| ClickSend.

Section Form.
Context {World : Type}.
Variable VITE_API_URL : list N.
Variable new_URL : list N -> outcome (list N).
Variable fetch : Request -> World -> outcome Response * World.
Variable elapse : Z -> World -> World.
Variable Papa_parse : File -> option (list Row).
Variable XLSX_parse : File -> option (list Row).
Variable props : Props.

(** The handler an action runs; a click on a disabled button runs none. *)
Definition perform (a : action) (st : State) : M World unit :=
  match a with
  | ChooseFile file => handleFileChange file
  | TypeMessage v => handleMessageChange v
  | TypeDelay parsed => handleDelayChange parsed
  | ClickSend =>
      if buttonDisabled st then ret tt
      else handleBulkSend VITE_API_URL new_URL fetch elapse Papa_parse
             XLSX_parse props st
  end.

(** A sequence of actions, each handler running to its end before the next
    action: the state and the world reached, and the effects performed. *)
Fixpoint session (actions : list action) (st : State) (w : World)
  : State * World * list event :=
  match actions with
  | [] => (st, w, [])
  | a :: actions' =>
      let r := perform a st w in
      let '(st', w', l) :=
        session actions' (reduce st (logOf r)) (worldOf r) in
      (st', w', logOf r ++ l)
  end.

End Form.

(** ** More vocabulary *)

(** A template written as text and tokens in turn: [pieces] pairs each text
    with the name of the token after it, [rest] is the text after the last
    token. *)
Fixpoint flattenTemplate (pieces : list (list N * list N)) (rest : list N)
  : list N :=
  match pieces with
  | [] => rest
  | (text, name) :: pieces' =>
      text ++ token name ++ flattenTemplate pieces' rest
  end.

(** The same with each token replaced by the text of its field. *)
Fixpoint fillTemplate (data : Row) (pieces : list (list N * list N))
    (rest : list N) : list N :=
  match pieces with
  | [] => rest
  | (text, name) :: pieces' =>
      text ++ fieldText data name ++ fillTemplate data pieces' rest
  end.

(** The texts hold no token and the names are names. *)
Definition plainPieces (pieces : list (list N * list N)) (rest : list N)
  : Prop :=
  Forall (fun p => noPlaceholder (fst p) = true /\ validName (snd p)) pieces
  /\ noPlaceholder rest = true.

Definition allWhiteSpace (s : list N) : Prop :=
  Forall (fun c => isWhiteSpace c = true) s.

(** The request of a row, sent to the parsed endpoint [u]. *)
Definition requestOf (props : Props) (u template : list N) (row : Row)
  : event :=
  Fetch (bulksendRequest props u (rowNumber row)
           (replacePlaceholders template row)).

(** The report when nothing failed. *)
Definition allSentText (successful : nat) : list N :=
  [9989] ++ str " All messages sent successfully to "
  ++ intToString (Z.of_nat successful) ++ str " contacts!".

(** An effect that neither sends, waits nor alerts and leaves the sending
    flag and the progress alone. *)
Definition quiet (e : event) : Prop :=
  isDispatch e = false /\ isFetch e = false /\ isSleep e = false
  /\ (forall b, e <> SetSending b) /\ (forall p, e <> SetProgress p)
  /\ (forall m, e <> Alert m).

(** More example data: a row whose number is padded with blanks, a form with
    a blank template, a form left in the sending state. *)
Definition paddedRow : Row :=
  {[ str "number" := VStr (str "  555 0100  ");
     str "name" := VStr (str "Dee") ]}.

Definition blankState : State :=
  {| inputFile := Some {| name := str "contacts.csv"; content := [] |};
     bulkMessage := str "   "; sending := false; delaySeconds := 3;
     progress := {| current := 0; total := 0 |} |}.

Definition stuckState : State :=
  {| inputFile := Some {| name := str "contacts.txt"; content := [] |};
     bulkMessage := str "Hi {name}"; sending := true; delaySeconds := 2;
     progress := {| current := 0; total := 0 |} |}.

(** ** Template renderer: lemmas *)

Lemma isWord_lbrace : isWord lbrace = false.
Proof. reflexivity. Qed.

Lemma isWord_rbrace : isWord rbrace = false.
Proof. reflexivity. Qed.

Lemma wordRun_split (s : list N) :
  s = fst (wordRun s) ++ snd (wordRun s)
  /\ Forall (fun c => isWord c = true) (fst (wordRun s))
  /\ (forall d r, snd (wordRun s) = d :: r -> isWord d = false).
Proof.
  induction s as [|c s IH]; simpl.
  - repeat split; [constructor | discriminate].
  - destruct (isWord c) eqn:Hc.
    + destruct (wordRun s) as [w r]; simpl in *.
      destruct IH as (Hs & Hw & Hr).
      repeat split; [congruence | constructor; assumption | exact Hr].
    + simpl. repeat split; [constructor |].
      intros d r [= <- _]. exact Hc.
Qed.

Lemma wordRun_app (w r : list N) :
  Forall (fun c => isWord c = true) w ->
  (forall d r', r = d :: r' -> isWord d = false) ->
  wordRun (w ++ r) = (w, r).
Proof.
  intros Hw Hr. induction Hw as [|c w Hc _ IH]; simpl.
  - destruct r as [|d r']; [reflexivity |].
    simpl. rewrite (Hr d r' eq_refl). reflexivity.
  - rewrite Hc, IH. reflexivity.
Qed.

(** Appending text that starts with a non-word unit does not move the end of
    the greedy run. *)
Lemma wordRun_app_stop (p x : list N) (d : N) :
  isWord d = false ->
  wordRun (p ++ d :: x) = (fst (wordRun p), snd (wordRun p) ++ d :: x).
Proof.
  intros Hd. induction p as [|c p IH]; simpl.
  - rewrite Hd. reflexivity.
  - destruct (isWord c); [| reflexivity].
    rewrite IH. destruct (wordRun p). reflexivity.
Qed.

Lemma matchAt_Some (s key : list N) :
  matchAt s = Some key <->
  validName key /\ exists post, s = token key ++ post.
Proof.
  unfold matchAt, validName, token. split.
  - destruct s as [|c s']; [discriminate |].
    destruct (N.eqb_spec c lbrace) as [-> |]; [| discriminate].
    destruct (wordRun_split s') as (Hs & Hw & Hr).
    destruct (wordRun s') as [w [|d r]]; simpl in *; [discriminate |].
    destruct w as [|c w]; simpl; [discriminate |].
    destruct (N.eqb_spec d rbrace) as [-> |]; [| discriminate].
    intros [= <-]. split; [split; [discriminate | assumption] |].
    exists r. rewrite Hs. simpl. rewrite <- app_assoc. reflexivity.
  - intros [[Hne Hw] [post ->]]. cbn [app]. change (lbrace =? lbrace) with true.
    cbv iota. rewrite <- app_assoc. cbn [app].
    rewrite (wordRun_app key (rbrace :: post) Hw).
    + destruct key; [congruence | reflexivity].
    + intros d r' [= <- _]. reflexivity.
Qed.

(** A match attempt that starts before an opening brace is decided before
    that brace. *)
Lemma matchAt_app_lbrace (c : N) (p x : list N) :
  matchAt ((c :: p) ++ lbrace :: x) = matchAt (c :: p).
Proof.
  simpl. destruct (c =? lbrace); [| reflexivity].
  rewrite (wordRun_app_stop p x lbrace isWord_lbrace).
  destruct (wordRun p) as [w [|d r]]; simpl; [| reflexivity].
  rewrite andb_false_r. reflexivity.
Qed.

Lemma replaceFrom_skip (fn : list N -> list N) (a b : list N) :
  replaceFrom fn (length a) (a ++ b) = replaceFrom fn 0 b.
Proof. induction a as [|c a IH]; simpl; [reflexivity | exact IH]. Qed.

Lemma replaceFrom_token (fn : list N -> list N) (name post : list N) :
  validName name ->
  replaceFrom fn 0 (token name ++ post) = fn name ++ replaceFrom fn 0 post.
Proof.
  intros Hn.
  assert (Hm : matchAt (token name ++ post) = Some name)
    by (apply matchAt_Some; split; [assumption | exists post; reflexivity]).
  unfold token in *. cbn [app replaceFrom] in *. rewrite Hm.
  f_equal.
  replace (S (length name)) with (length (name ++ [rbrace]))
    by (rewrite length_app; simpl; lia).
  apply replaceFrom_skip.
Qed.

(** Text in front of an opening brace is rendered on its own. *)
Lemma replaceFrom_prefix (fn : list N -> list N) (pre x : list N) :
  forall skip, (skip <= length pre)%nat ->
  replaceFrom fn skip (pre ++ lbrace :: x)
  = replaceFrom fn skip pre ++ replaceFrom fn 0 (lbrace :: x).
Proof.
  induction pre as [|c pre IH]; intros skip Hskip.
  - simpl in Hskip. replace skip with 0%nat by lia. reflexivity.
  - destruct skip as [|k].
    + change (replaceFrom fn 0 ((c :: pre) ++ lbrace :: x))
        with (match matchAt ((c :: pre) ++ lbrace :: x) with
              | Some key => fn key ++ replaceFrom fn (S (length key)) (pre ++ lbrace :: x)
              | None => c :: replaceFrom fn 0 (pre ++ lbrace :: x)
              end).
      rewrite matchAt_app_lbrace.
      change (replaceFrom fn 0 (c :: pre))
        with (match matchAt (c :: pre) with
              | Some key => fn key ++ replaceFrom fn (S (length key)) pre
              | None => c :: replaceFrom fn 0 pre
              end).
      destruct (matchAt (c :: pre)) as [key|] eqn:Hm.
      * apply matchAt_Some in Hm as [_ [post Hpost]].
        unfold token in Hpost. injection Hpost as _ Hpre.
        rewrite IH; [rewrite <- app_assoc; reflexivity |].
        rewrite Hpre, <- app_assoc, length_app. simpl. lia.
      * rewrite IH by lia. reflexivity.
    + simpl. apply IH. simpl in Hskip. lia.
Qed.

Lemma replacePlaceholders_token (pre name post : list N) (data : Row) :
  validName name ->
  replacePlaceholders (pre ++ token name ++ post) data
  = replacePlaceholders pre data ++ fieldText data name
    ++ replacePlaceholders post data.
Proof.
  intros Hn. unfold replacePlaceholders.
  change (token name ++ post) with (lbrace :: (name ++ [rbrace]) ++ post).
  rewrite replaceFrom_prefix by lia.
  change (lbrace :: (name ++ [rbrace]) ++ post) with (token name ++ post).
  rewrite replaceFrom_token by assumption. reflexivity.
Qed.

Lemma noPlaceholder_spec (s : list N) :
  noPlaceholder s = true <-> ~ hasPlaceholder s.
Proof.
  induction s as [|c s IH].
  - simpl. split; [| reflexivity].
    intros _ (pre & name & post & _ & H).
    destruct pre; discriminate H.
  - cbn [noPlaceholder].
    destruct (matchAt (c :: s)) as [key|] eqn:Hm.
    + split; [discriminate |]. intros H. exfalso. apply H.
      apply matchAt_Some in Hm as [Hv [post Hpost]].
      exists [], key, post. split; [assumption | exact Hpost].
    + rewrite IH. split.
      * intros Hs (pre & name & post & Hv & H).
        destruct pre as [|c' pre].
        -- assert (matchAt (c :: s) = Some name) as Hm'
             by (apply matchAt_Some; split; [assumption | exists post; exact H]).
           congruence.
        -- injection H as _ H. apply Hs. exists pre, name, post. auto.
      * intros Hs (pre & name & post & Hv & ->).
        apply Hs. exists (c :: pre), name, post. auto.
Qed.

Lemma replaceFrom_noPlaceholder (fn : list N -> list N) (s : list N) :
  noPlaceholder s = true -> replaceFrom fn 0 s = s.
Proof.
  induction s as [|c s IH]; [reflexivity |].
  cbn [noPlaceholder].
  change (replaceFrom fn 0 (c :: s))
    with (match matchAt (c :: s) with
          | Some key => fn key ++ replaceFrom fn (S (length key)) s
          | None => c :: replaceFrom fn 0 s
          end).
  destruct (matchAt (c :: s)); [discriminate |].
  intros H. rewrite IH by assumption. reflexivity.
Qed.

Lemma truthy_intToString (z : Z) : truthy (intToString z) = true.
Proof.
  unfold intToString. destruct (Z.to_int z) as [d | d]; [| reflexivity].
  destruct d; reflexivity.
Qed.

Lemma fieldText_present (data : Row) (name : list N) (v : value) (s : list N) :
  data !! name = Some v -> toString v = Ok s -> fieldText data name = s.
Proof.
  intros Hv Hs. unfold fieldText, prop. rewrite Hv. simpl.
  destruct v as [| | s0 | z | [] | t]; simpl in *; try discriminate;
    injection Hs as <-; try reflexivity.
  - destruct s0; reflexivity.
  - rewrite truthy_intToString. reflexivity.
  - destruct t; reflexivity.
Qed.

Lemma fieldText_empty (data : Row) (name : list N) :
  (data !! name = None /\ inherited name = VUndefined)
  \/ data !! name = Some (VStr [])
  \/ data !! name = Some VNull \/ data !! name = Some VUndefined ->
  fieldText data name = [].
Proof.
  unfold fieldText, prop.
  intros [[H Hi] | [H | [H | H]]]; rewrite H; [rewrite Hi |..]; reflexivity.
Qed.

Lemma fieldText_inherited (data : Row) (name s : list N) :
  data !! name = None -> toString (inherited name) = Ok s ->
  fieldText data name = s.
Proof.
  intros H Hs. unfold fieldText, prop. rewrite H.
  destruct (inherited name) as [| | s0 | z | [] | t]; simpl in *;
    try discriminate; injection Hs as <-; try reflexivity.
  - destruct s0; reflexivity.
  - rewrite truthy_intToString. reflexivity.
  - destruct t; reflexivity.
Qed.

Lemma inherited_number : inherited (str "number") = VUndefined.
Proof. reflexivity. Qed.

(** X18. For every template and record, each occurrence of a placeholder
    token [{name}] (a word-unit name in braces) is replaced by the string form
    of the value the record holds for [name]; the token renders as the empty
    string when that value is empty (the empty string, [null], [undefined]),
    and when the record has no such field and [name] is not a property of
    [Object.prototype]; when the record has no such field and [name] is such
    a property, the string form of the inherited value is inserted. The text
    before and after the occurrence is rendered on its own. *)
Theorem replacePlaceholders_substitutes
  (pre name post : list N) (data : Row) :
  validName name ->
  (forall v s, data !! name = Some v -> toString v = Ok s ->
     replacePlaceholders (pre ++ token name ++ post) data
     = replacePlaceholders pre data ++ s ++ replacePlaceholders post data)
  /\ ((data !! name = None /\ inherited name = VUndefined)
      \/ data !! name = Some (VStr [])
      \/ data !! name = Some VNull \/ data !! name = Some VUndefined ->
      replacePlaceholders (pre ++ token name ++ post) data
      = replacePlaceholders pre data ++ replacePlaceholders post data)
  /\ (forall s, data !! name = None -> toString (inherited name) = Ok s ->
      replacePlaceholders (pre ++ token name ++ post) data
      = replacePlaceholders pre data ++ s ++ replacePlaceholders post data).
Proof.
  intros Hn. split; [| split].
  - intros v s Hv Hs. rewrite replacePlaceholders_token by assumption.
    rewrite (fieldText_present data name v s Hv Hs). reflexivity.
  - intros H. rewrite replacePlaceholders_token by assumption.
    rewrite (fieldText_empty data name H). reflexivity.
  - intros s H Hs. rewrite replacePlaceholders_token by assumption.
    rewrite (fieldText_inherited data name s H Hs). reflexivity.
Qed.

(** C5. At the template [{constructor}|{name}] and the row of Ann, which has
    the fields [number] and [name] and no field [constructor], the
    placeholder of the absent field does not render as the empty string:
    [data[key]] finds the function [Object] on the prototype of the row, and
    the text of that function is inserted. The field that is present is
    filled in. *)
Theorem replacePlaceholders_inherited_name :
  ann !! str "constructor" = None
  /\ replacePlaceholders (str "{constructor}|{name}") ann
     = str "function Object() { [native code] }|Ann".
Proof. split; reflexivity. Qed.

(** C6. A string with no placeholder token is rendered unchanged under every
    record (braces without a valid name inside are literal text), and all the
    occurrences of one placeholder name in a template receive one and the same
    text. *)
Theorem replacePlaceholders_identity (s : list N) (data : Row) :
  ~ hasPlaceholder s ->
  replacePlaceholders s data = s
  /\ (forall name, validName name ->
      exists v, forall pre post,
        replacePlaceholders (pre ++ token name ++ post) data
        = replacePlaceholders pre data ++ v ++ replacePlaceholders post data).
Proof.
  intros Hs. split.
  - apply replaceFrom_noPlaceholder, noPlaceholder_spec, Hs.
  - intros name Hn. exists (fieldText data name). intros pre post.
    apply replacePlaceholders_token, Hn.
Qed.

Lemma validName_name : validName (str "name").
Proof. split; [discriminate | repeat constructor]. Defined.

Lemma replacePlaceholders_substitutes_witness :
  replacePlaceholders (str "Hi " ++ token (str "name") ++ str "!") ann
  = replacePlaceholders (str "Hi ") ann ++ str "Ann"
    ++ replacePlaceholders (str "!") ann.
Proof.
  apply (proj1 (replacePlaceholders_substitutes
                  (str "Hi ") (str "name") (str "!") ann validName_name)
           (VStr (str "Ann")) (str "Ann")); reflexivity.
Defined.

Lemma replacePlaceholders_identity_witness :
  replacePlaceholders (str "a {} b {x y} }{ {") ann = str "a {} b {x y} }{ {".
Proof.
  apply (proj1 (replacePlaceholders_identity (str "a {} b {x y} }{ {") ann
                  (proj1 (noPlaceholder_spec (str "a {} b {x y} }{ {"))
                     eq_refl))).
Defined.

(** ** Lists of events *)

Lemma filter_fetch_nil (f : event -> bool) (fl : list event) :
  (forall r, f (Fetch r) = false) ->
  Forall (fun e => isFetch e = true) fl ->
  List.filter f fl = [].
Proof.
  intros Hf Hfl. induction Hfl as [|e fl He _ IH]; [reflexivity |].
  destruct e; try discriminate He. simpl. rewrite Hf. exact IH.
Qed.

Lemma filter_length_split {A} (p : A -> bool) (l : list A) :
  (length (List.filter p l) + length (List.filter (fun x => negb (p x)) l)
   = length l)%nat.
Proof.
  induction l as [|x l IH]; [reflexivity |].
  simpl. destruct (p x); simpl; lia.
Qed.

(** ** Dispatch client and sequencer: lemmas *)

Section Properties.
Context {World : Type}.
Variable VITE_API_URL : list N.
Variable new_URL : list N -> outcome (list N).
Variable fetch : Request -> World -> outcome Response * World.
Variable elapse : Z -> World -> World.
Variable Papa_parse : File -> option (list Row).
Variable XLSX_parse : File -> option (list Row).
Variable props : Props.

Local Abbreviation send := (sendMessage VITE_API_URL new_URL fetch props).
Local Abbreviation loop :=
  (sendLoop VITE_API_URL new_URL fetch elapse props).
Local Abbreviation callback :=
  (bulkSendCallback VITE_API_URL new_URL fetch elapse props).
Local Abbreviation handle :=
  (handleBulkSend VITE_API_URL new_URL fetch elapse Papa_parse XLSX_parse
     props).

(** [sendMessage] always returns: its log is the dispatch mark, at most the
    network call, and the result it returns. *)
Lemma sendMessage_returns (number message : list N) (w : World) :
  exists res w' fl,
    send number message w
    = (Ok res, w', Dispatch number message :: fl ++ [Returned res])
    /\ Forall (fun e => isFetch e = true) fl.
Proof.
  unfold sendMessage, bind, try_catch, emit, lift, doFetch, throw, ret.
  destruct (new_URL _) as [u | e]; simpl.
  - destruct (fetch _ w) as [[resp | e] w']; simpl.
    + destruct (text resp) as [body | e]; simpl.
      * destruct (ok resp); simpl; eexists _, _, [_];
          (split; [reflexivity | repeat constructor]).
      * eexists _, _, [_]; (split; [reflexivity | repeat constructor]).
    + eexists _, _, [_]; (split; [reflexivity | repeat constructor]).
  - eexists _, _, []; (split; [reflexivity | constructor]).
Qed.

Lemma validRow_number (row : Row) :
  validRow row = true ->
  exists s, toString (prop row (str "number")) = Ok s
            /\ numberOf row = Some (trim s) /\ trim s <> [].
Proof.
  unfold validRow, numberOf.
  destruct (prop row (str "number")) as [| | s | z | b | s] eqn:Hp; simpl;
    try discriminate.
  - intros H. exists s. repeat split. destruct (trim s); [discriminate | discriminate].
  - intros H. exists (intToString (int_value z)). repeat split.
    destruct (trim (intToString (int_value z))); discriminate.
  - intros H. destruct b; eexists; repeat split;
      match goal with |- ?t <> [] => destruct t; discriminate end.
  - intros H. exists s. repeat split. destruct (trim s); discriminate.
Qed.

Lemma validRow_hasNumber (row : Row) : validRow row = true <-> hasNumber row.
Proof.
  split.
  - intros H. destruct (validRow_number row H) as (s & Hs & _ & Hne).
    unfold prop in Hs. destruct (row !! str "number") as [v|] eqn:Hv.
    + exists v, s. auto.
    + rewrite inherited_number in Hs. discriminate Hs.
  - intros (v & s & Hv & Hs & Hne). unfold validRow, numberOf, prop.
    rewrite Hv. simpl.
    destruct v as [| | s0 | z | [] | s0]; simpl in *; try discriminate;
      injection Hs as <-; try reflexivity;
      match goal with |- context [trim ?t] =>
        destruct (trim t); [congruence | reflexivity] end.
Qed.

(** One turn of the loop on a valid row. *)
Lemma sendLoop_cons (t : list N) (d : Z) (vr : list Row) (row : Row)
    (rows : list Row) (i su : nat) (f : list (list N)) (w : World) :
  validRow row = true ->
  exists res w1 fl,
    send (rowNumber row) (replacePlaceholders t row) w
    = (Ok res, w1, dispatchOf t row :: fl ++ [Returned res])
    /\ Forall (fun e => isFetch e = true) fl
    /\ loop t d vr (row :: rows) i su f w
       = (let r := loop t d vr rows (S i)
                     (if success res then S su else su)
                     (if success res then f else f ++ [rowNumber row])
                     (if (Z.of_nat i <? Z.of_nat (length vr) - 1)%Z
                      then elapse (d * 1000) w1 else w1) in
          (resultOf r, worldOf r,
           SetProgress {| current := i + 1; total := length vr |}
           :: (dispatchOf t row :: fl ++ [Returned res])
           ++ sleepIf d (length vr) i ++ logOf r)).
Proof.
  intros Hv. destruct (validRow_number row Hv) as (s & Hs & Hn & _).
  destruct (sendMessage_returns (rowNumber row)
              (replacePlaceholders t row) w) as (res & w1 & fl & Hsend & Hfl).
  exists res, w1, fl. split; [exact Hsend | split; [exact Hfl |]].
  cbn [sendLoop]. unfold bind at 1. unfold lift. rewrite Hs.
  unfold bind at 1. unfold setProgress, emit.
  unfold bind at 1. unfold rowNumber in *. rewrite Hn in *.
  simpl in Hsend. rewrite Hsend.
  unfold bind at 1. unfold sleepIf, sleep, ret. simpl default.
  destruct (Z.of_nat i <? Z.of_nat (length vr) - 1)%Z;
    match goal with
    | |- context [sendLoop ?a ?b ?c ?e ?p ?t ?d ?v ?r ?j ?x ?y ?z] =>
        destruct (sendLoop a b c e p t d v r j x y z) as [[o w2] l2]
    end;
    unfold resultOf, worldOf, logOf, dispatchOf, rowNumber; rewrite ?Hn;
    simpl; rewrite <- ?app_assoc; reflexivity.
Qed.

(** The log of the loop has the shape [LoopLog]. *)
Lemma sendLoop_log (t : list N) (d : Z) (vr rows : list Row) :
  Forall (fun r => validRow r = true) rows ->
  forall i su f w,
    LoopLog t d (length vr) i rows (logOf (loop t d vr rows i su f w)).
Proof.
  induction 1 as [|row rows Hrow _ IH]; intros i su f w.
  - constructor.
  - destruct (sendLoop_cons t d vr row rows i su f w Hrow)
      as (res & w1 & fl & _ & Hfl & ->).
    cbn [logOf snd]. constructor; [exact Hfl | apply IH].
Qed.

Lemma outcomesOf_fetches (pending : option (list N)) (fl l : list event) :
  Forall (fun e => isFetch e = true) fl ->
  outcomesOf pending (fl ++ l) = outcomesOf pending l.
Proof.
  induction 1 as [|e fl He _ IH]; [reflexivity |].
  destruct e; try discriminate He. exact IH.
Qed.

Lemma outcomesOf_turn (t : list N) (d : Z) (len i : nat) (row : Row)
    (p : Progress) (fl l : list event) (res : SendResult) :
  Forall (fun e => isFetch e = true) fl ->
  outcomesOf None (SetProgress p :: (dispatchOf t row :: fl ++ [Returned res])
                   ++ sleepIf d len i ++ l)
  = (rowNumber row, res) :: outcomesOf None l.
Proof.
  intros Hfl. cbn [outcomesOf app dispatchOf].
  rewrite <- app_assoc, (outcomesOf_fetches _ fl _ Hfl).
  cbn [outcomesOf app]. unfold sleepIf. destruct (_ <? _)%Z; reflexivity.
Qed.

(** The loop ends, and its counters are those of the results returned to
    it. *)
Lemma sendLoop_summary (t : list N) (d : Z) (vr rows : list Row) :
  Forall (fun r => validRow r = true) rows ->
  forall i su f w,
    let outcomes := outcomesOf None (logOf (loop t d vr rows i su f w)) in
    resultOf (loop t d vr rows i su f w)
    = Ok ((su + length (List.filter succeededIn outcomes))%nat,
          f ++ map fst (List.filter failedIn outcomes))
    /\ map fst outcomes = map rowNumber rows.
Proof.
  induction 1 as [|row rows Hrow _ IH]; intros i su f w.
  - simpl. rewrite Nat.add_0_r, app_nil_r. split; reflexivity.
  - destruct (sendLoop_cons t d vr row rows i su f w Hrow)
      as (res & w1 & fl & _ & Hfl & ->).
    cbv zeta.
    destruct (IH (S i) (if success res then S su else su)
                (if success res then f else f ++ [rowNumber row])
                (if (Z.of_nat i <? Z.of_nat (length vr) - 1)%Z
                 then elapse (d * 1000) w1 else w1))
      as [Hres Hrows].
    set (r := loop t d vr rows (S i) _ _ _) in *.
    unfold resultOf, logOf in *. cbn [fst snd] in *.
    rewrite (outcomesOf_turn t d (length vr) i row _ fl _ res Hfl).
    rewrite Hres. split; [| simpl; rewrite Hrows; reflexivity].
    cbn [List.filter].
    change (succeededIn (rowNumber row, res)) with (success res).
    change (failedIn (rowNumber row, res)) with (negb (success res)).
    destruct (success res); cbn [negb map length fst].
    + do 2 f_equal. lia.
    + rewrite <- app_assoc. reflexivity.
Qed.

(** ** Projections of a loop log *)

Lemma LoopLog_attempts (t : list N) (d : Z) (len i : nat) (rows : list Row)
    (l : list event) :
  LoopLog t d len i rows l ->
  List.filter (fun e => isProgress e || isDispatch e) l
  = attemptsFrom t len i rows.
Proof.
  induction 1 as [|i row rows fl res l Hfl _ IH]; [reflexivity |].
  cbn [List.filter isProgress isDispatch orb app attemptsFrom dispatchOf].
  rewrite !List.filter_app, IH.
  rewrite (filter_fetch_nil _ fl) by (reflexivity || assumption).
  unfold sleepIf. destruct (_ <? _)%Z; reflexivity.
Qed.

Lemma attemptsFrom_progress (t : list N) (len : nat) (rows : list Row) :
  forall i,
    List.filter isProgress (attemptsFrom t len i rows)
    = map (fun k => SetProgress {| current := k; total := len |})
        (seq (S i) (length rows)).
Proof.
  induction rows as [|row rows IH]; intros i; [reflexivity |].
  simpl. rewrite IH. replace (i + 1)%nat with (S i) by lia. reflexivity.
Qed.

Lemma attemptsFrom_dispatch (t : list N) (len : nat) (rows : list Row) :
  forall i,
    List.filter isDispatch (attemptsFrom t len i rows)
    = map (dispatchOf t) rows.
Proof.
  induction rows as [|row rows IH]; intros i; [reflexivity |].
  simpl. rewrite IH. reflexivity.
Qed.

Lemma filter_filter_weaken {A} (p q : A -> bool) (l : list A) :
  (forall x, q x = true -> p x = true) ->
  List.filter q (List.filter p l) = List.filter q l.
Proof.
  intros Hpq. induction l as [|x l IH]; [reflexivity |].
  simpl. destruct (p x) eqn:Hp; simpl.
  - rewrite IH. reflexivity.
  - destruct (q x) eqn:Hq; [| exact IH].
    rewrite (Hpq x Hq) in Hp. discriminate.
Qed.

Lemma LoopLog_sleeps (t : list N) (d : Z) (len i : nat) (rows : list Row)
    (l : list event) :
  LoopLog t d len i rows l ->
  (i + length rows = len)%nat ->
  List.filter (fun e => isDispatch e || isSleep e) l
  = intersperse (Sleep (d * 1000)) (map (dispatchOf t) rows).
Proof.
  induction 1 as [|i row rows fl res l Hfl Hl IH]; intros Hlen;
    [reflexivity |].
  cbn [List.filter isProgress isDispatch isSleep orb app dispatchOf].
  rewrite !List.filter_app, IH by (simpl in Hlen; lia).
  rewrite (filter_fetch_nil _ fl) by (reflexivity || assumption).
  unfold sleepIf. simpl in Hlen.
  destruct rows as [|row' rows].
  - replace (Z.of_nat i <? Z.of_nat len - 1)%Z with false
      by (symmetry; apply Z.ltb_ge; simpl in Hlen; lia).
    reflexivity.
  - replace (Z.of_nat i <? Z.of_nat len - 1)%Z with true
      by (symmetry; apply Z.ltb_lt; simpl in Hlen; lia).
    reflexivity.
Qed.

Lemma intersperse_separators (t : list N) (sep : event) (rows : list Row) :
  isSleep sep = true ->
  List.filter isSleep (intersperse sep (map (dispatchOf t) rows))
  = repeat sep (length rows - 1).
Proof.
  intros Hsep. induction rows as [|row rows IH]; [reflexivity |].
  destruct rows as [|row' rows]; [reflexivity |].
  change (intersperse sep (map (dispatchOf t) (row :: row' :: rows)))
    with (dispatchOf t row :: sep
          :: intersperse sep (map (dispatchOf t) (row' :: rows))).
  cbn [List.filter dispatchOf isSleep]. rewrite Hsep, IH.
  simpl. rewrite Nat.sub_0_r. reflexivity.
Qed.

(** The loop sets no state but the progress. *)
Lemma LoopLog_setters (t : list N) (d : Z) (len i : nat) (rows : list Row)
    (l : list event) :
  LoopLog t d len i rows l ->
  Forall (fun e => isSetter e = true -> isProgress e = true) l.
Proof.
  induction 1 as [|i row rows fl res l Hfl _ IH]; [constructor |].
  constructor; [reflexivity |]. rewrite !Forall_app. repeat split.
  - constructor; [discriminate |]. rewrite Forall_app. split.
    + eapply List.Forall_impl; [| exact Hfl]. intros [] ?; try discriminate.
    + repeat constructor. discriminate.
  - unfold sleepIf. destruct (_ <? _)%Z; repeat constructor; discriminate.
  - exact IH.
Qed.


Lemma reduce_progress_only (l : list event) :
  Forall (fun e => isSetter e = true -> isProgress e = true) l ->
  forall st,
    inputFile (reduce st l) = inputFile st
    /\ bulkMessage (reduce st l) = bulkMessage st
    /\ sending (reduce st l) = sending st
    /\ delaySeconds (reduce st l) = delaySeconds st.
Proof.
  induction 1 as [|e l He _ IH]; intros st; [repeat split |].
  unfold reduce in *. simpl. destruct (IH (applyEvent st e)) as (H1 & H2 & H3 & H4).
  rewrite H1, H2, H3, H4.
  destruct e; simpl in *; try (repeat split; reflexivity);
    specialize (He eq_refl); discriminate.
Qed.

(** The whole callback: progress set to [{0, total}], the loop, the closing
    updates and the report. *)
Lemma bulkSendCallback_run (st : State) (data : list Row) (w : World) :
  exists su f,
    resultOf (loop (bulkMessage st) (delaySeconds st)
                (List.filter validRow data) (List.filter validRow data)
                0 0 [] w) = Ok (su, f)
    /\ resultOf (callback st data w) = Ok tt
    /\ logOf (callback st data w)
       = SetProgress {| current := 0;
                        total := length (List.filter validRow data) |}
         :: logOf (loop (bulkMessage st) (delaySeconds st)
                     (List.filter validRow data) (List.filter validRow data)
                     0 0 [] w)
         ++ closing (summaryText su f).
Proof.
  assert (Hv : Forall (fun r => validRow r = true) (List.filter validRow data)).
  { apply List.Forall_forall. intros r Hr. apply List.filter_In in Hr. tauto. }
  destruct (sendLoop_summary (bulkMessage st) (delaySeconds st)
              (List.filter validRow data) (List.filter validRow data) Hv
              0 0 [] w) as [Hres _].
  eexists _, _. split; [exact Hres |].
  unfold bulkSendCallback, bind, setProgress, setSending, setInputFile,
    setBulkMessage, alert, emit, closing.
  unfold resultOf in Hres.
  destruct (loop _ _ _ _ 0 0 [] w) as [[o w'] l]. simpl in Hres. subst o.
  simpl. split; reflexivity.
Qed.

Lemma validRows_valid (data : list Row) :
  Forall (fun r => validRow r = true) (List.filter validRow data).
Proof.
  apply List.Forall_forall. intros r Hr. apply List.filter_In in Hr. tauto.
Qed.

Lemma closing_last (l : list event) (summary : list N) :
  last (l ++ closing summary) = Some (Alert summary).
Proof.
  unfold closing.
  change [SetSending false; SetInputFile None; SetBulkMessage [];
          SetProgress {| current := 0; total := 0 |}; Alert summary]
    with ([SetSending false; SetInputFile None; SetBulkMessage [];
           SetProgress {| current := 0; total := 0 |}] ++ [Alert summary]).
  rewrite app_assoc. apply last_snoc.
Qed.

(** ** The bulk sequencer *)

(** C1. Every run of the sequencer ends with a summary, and in it
    successCount + length(failedNumbers) = total, the number of rows kept by
    the filter: each kept row is dispatched once and has exactly one result,
    counted in successCount when it is a success and recorded in
    failedNumbers when it is a failure. The closing report shows that
    summary. *)
Theorem summary_counts_every_valid_row
  (st : State) (data : list Row) (w : World) :
  let validRows := List.filter validRow data in
  let run := loop (bulkMessage st) (delaySeconds st) validRows validRows
               0 0 [] w in
  let outcomes := outcomesOf None (logOf run) in
  exists successful failed,
    resultOf run = Ok (successful, failed)
    /\ (successful + length failed = length validRows)%nat
    /\ successful = length (List.filter succeededIn outcomes)
    /\ length failed = length (List.filter failedIn outcomes)
    /\ map fst outcomes = map rowNumber validRows
    /\ last (logOf (callback st data w))
       = Some (Alert (summaryText successful failed)).
Proof.
  intros validRows run outcomes.
  destruct (sendLoop_summary (bulkMessage st) (delaySeconds st) validRows
              validRows (validRows_valid data) 0 0 [] w) as [Hres Hrows].
  fold run in Hres, Hrows. fold outcomes in Hres, Hrows.
  destruct (bulkSendCallback_run st data w) as (su & f & Hres' & _ & Hlog).
  fold validRows in Hres', Hlog. fold run in Hres', Hlog.
  rewrite Hres in Hres'. injection Hres' as Hsu Hf.
  exists su, f. rewrite Hres. subst su f. simpl.
  repeat split; try assumption.
  - rewrite length_map. unfold failedIn, succeededIn.
    rewrite (filter_length_split (fun p => success (snd p)) outcomes).
    transitivity (length (map fst outcomes));
      [rewrite length_map; reflexivity | rewrite Hrows, length_map; reflexivity].
  - rewrite length_map. reflexivity.
  - rewrite Hlog, app_comm_cons. apply closing_last.
Qed.


(** The progress updates and the dispatches of the loop. *)
Lemma sendLoop_observations
  (st : State) (data : list Row) (w : World) :
  let validRows := List.filter validRow data in
  let n := length validRows in
  let l := logOf (loop (bulkMessage st) (delaySeconds st) validRows validRows
                    0 0 [] w) in
  List.filter (fun e => isProgress e || isDispatch e) l
  = attemptsFrom (bulkMessage st) n 0 validRows
  /\ List.filter isProgress l
     = map (fun k => SetProgress {| current := k; total := n |}) (seq 1 n)
  /\ List.filter isDispatch l = map (dispatchOf (bulkMessage st)) validRows.
Proof.
  intros validRows n l.
  pose proof (LoopLog_attempts _ _ _ _ _ _
                (sendLoop_log (bulkMessage st) (delaySeconds st) validRows
                   validRows (validRows_valid data) 0 0 [] w)) as Hatt.
  fold l n in Hatt. split; [exact Hatt |]. split.
  - rewrite <- (filter_filter_weaken (fun e => isProgress e || isDispatch e)
                  isProgress)
      by (intros x Hx; rewrite Hx; reflexivity).
    rewrite Hatt. apply attemptsFrom_progress.
  - rewrite <- (filter_filter_weaken (fun e => isProgress e || isDispatch e)
                  isDispatch)
      by (intros x Hx; rewrite Hx; apply orb_true_r).
    rewrite Hatt. apply attemptsFrom_dispatch.
Qed.

(** C3 (amended). In every run with [total] kept rows the progress setter is
    called exactly [total + 2] times: once with [{0, total}] before the first
    row, then with [current] running through 1, 2, ..., [total] in this
    order, each of these right before the dispatch of its row, and once with
    [{0, 0}] after the last row; the rows are dispatched in the order of the
    filtered sequence. *)
Theorem progress_observations_in_order
  (st : State) (data : list Row) (w : World) :
  let validRows := List.filter validRow data in
  let n := length validRows in
  let l := logOf (callback st data w) in
  List.filter isProgress l
  = SetProgress {| current := 0; total := n |}
    :: map (fun k => SetProgress {| current := k; total := n |}) (seq 1 n)
    ++ [SetProgress {| current := 0; total := 0 |}]
  /\ length (List.filter isProgress l) = (n + 2)%nat
  /\ List.filter (fun e => isProgress e || isDispatch e) l
     = SetProgress {| current := 0; total := n |}
       :: attemptsFrom (bulkMessage st) n 0 validRows
       ++ [SetProgress {| current := 0; total := 0 |}]
  /\ List.filter isDispatch l = map (dispatchOf (bulkMessage st)) validRows.
Proof.
  intros validRows n l.
  destruct (sendLoop_observations st data w) as (Hatt & Hpro & Hdis).
  fold validRows n in Hatt, Hpro, Hdis.
  destruct (bulkSendCallback_run st data w) as (su & f & _ & _ & Hlog).
  fold validRows n in Hlog. unfold l. rewrite Hlog.
  cbn [List.filter isProgress isDispatch orb].
  rewrite !List.filter_app, Hatt, Hpro, Hdis.
  cbn [closing List.filter isProgress isDispatch orb].
  repeat split; try reflexivity.
  - cbn [length]. rewrite length_app, length_map, length_seq. simpl. lia.
  - apply app_nil_r.
Qed.

(** C4. In every run with [total] kept rows the delays are exactly
    [total - 1] suspensions of [delaySeconds] seconds, one between each
    dispatch and the next: a delay follows every dispatch but the last, none
    follows the last, and there is none at all when [total] is 0 or 1. *)
Theorem delays_between_dispatches
  (st : State) (data : list Row) (w : World) :
  let validRows := List.filter validRow data in
  let l := logOf (callback st data w) in
  let pause := Sleep (delaySeconds st * 1000) in
  List.filter (fun e => isDispatch e || isSleep e) l
  = intersperse pause (map (dispatchOf (bulkMessage st)) validRows)
  /\ List.filter isSleep l = repeat pause (length validRows - 1).
Proof.
  intros validRows l pause.
  destruct (bulkSendCallback_run st data w) as (su & f & _ & _ & Hlog).
  assert (Hds : List.filter (fun e => isDispatch e || isSleep e) l
                = intersperse pause
                    (map (dispatchOf (bulkMessage st)) validRows)).
  { unfold l. rewrite Hlog. cbn [List.filter isDispatch isSleep orb].
    rewrite List.filter_app. cbn [closing List.filter isDispatch isSleep orb].
    rewrite app_nil_r.
    apply (LoopLog_sleeps _ _ (length validRows) 0 validRows);
      [| reflexivity].
    apply sendLoop_log, validRows_valid. }
  split; [exact Hds |].
  rewrite <- (filter_filter_weaken (fun e => isDispatch e || isSleep e) isSleep)
    by (intros x Hx; rewrite Hx; apply orb_true_r).
  rewrite Hds. apply intersperse_separators. reflexivity.
Qed.

(** C9. In every run [failedNumbers] is the list of the trimmed [number]
    values of the kept rows whose dispatch returned a failure, in the order
    of the filtered sequence, which is the order of dispatch; the text
    recorded for a row is the text it was dispatched with. *)
Theorem failed_numbers_in_dispatch_order
  (st : State) (data : list Row) (w : World) :
  let validRows := List.filter validRow data in
  let run := loop (bulkMessage st) (delaySeconds st) validRows validRows
               0 0 [] w in
  let outcomes := outcomesOf None (logOf run) in
  exists successful failed,
    resultOf run = Ok (successful, failed)
    /\ failed = map fst (List.filter failedIn outcomes)
    /\ map fst outcomes = map rowNumber validRows
    /\ List.filter isDispatch (logOf run)
       = map (fun row => Dispatch (rowNumber row)
                           (replacePlaceholders (bulkMessage st) row))
           validRows
    /\ (forall row, In row validRows ->
        exists v s, row !! str "number" = Some v /\ toString v = Ok s
                    /\ rowNumber row = trim s).
Proof.
  intros validRows run outcomes.
  destruct (sendLoop_summary (bulkMessage st) (delaySeconds st) validRows
              validRows (validRows_valid data) 0 0 [] w) as [Hres Hrows].
  eexists _, _. split; [exact Hres |]. split; [reflexivity |].
  split; [exact Hrows |]. split.
  - rewrite <- (filter_filter_weaken (fun e => isProgress e || isDispatch e)
                  isDispatch)
      by (intros x Hx; rewrite Hx; apply orb_true_r).
    unfold run.
    rewrite (LoopLog_attempts _ _ _ _ _ _
               (sendLoop_log (bulkMessage st) (delaySeconds st) validRows
                  validRows (validRows_valid data) 0 0 [] w)).
    apply attemptsFrom_dispatch.
  - intros row Hin. apply List.filter_In in Hin as [_ Hv].
    destruct (validRow_number row Hv) as (s & Hs & Hn & _).
    unfold prop in Hs. destruct (row !! str "number") as [v|] eqn:Hv';
      [| rewrite inherited_number in Hs; discriminate Hs].
    exists v, s. unfold rowNumber. rewrite Hn. auto.
Qed.

(** C10. When a run completes the component resets more than the progress:
    besides progress [{0, 0}] it clears the selected file ([null]), the
    message template (the empty string) and the sending flag, and leaves the
    rest of its state, the delay, as it is; a further run therefore is refused
    until a file is selected and a template entered again. *)
Theorem completion_resets_file_template_and_progress
  (st0 st : State) (data : list Row) (w : World) :
  let l := logOf (callback st0 data w) in
  resultOf (callback st0 data w) = Ok tt
  /\ reduce st l
     = {| inputFile := None; bulkMessage := []; sending := false;
          delaySeconds := delaySeconds st;
          progress := {| current := 0; total := 0 |} |}
  /\ forall w', handle (reduce st l) w' = (Ok tt, w', [Alert requiredText]).
Proof.
  intros l.
  destruct (bulkSendCallback_run st0 data w) as (su & f & _ & Hok & Hlog).
  split; [exact Hok |].
  assert (Hfinal : reduce st l
     = {| inputFile := None; bulkMessage := []; sending := false;
          delaySeconds := delaySeconds st;
          progress := {| current := 0; total := 0 |} |}).
  { unfold l. rewrite Hlog. unfold reduce. cbn [fold_left].
    rewrite fold_left_app. cbn [closing fold_left applyEvent].
    cbn [inputFile bulkMessage sending delaySeconds progress].
    f_equal.
    pose proof (LoopLog_setters _ _ _ _ _ _
                  (sendLoop_log (bulkMessage st0) (delaySeconds st0)
                     (List.filter validRow data) (List.filter validRow data)
                     (validRows_valid data) 0 0 [] w)) as Hset.
    destruct (reduce_progress_only _ Hset
                (applyEvent st
                   (SetProgress
                      {| current := 0;
                         total := length (List.filter validRow data) |})))
      as (_ & _ & _ & Hd).
    exact Hd. }
  split; [exact Hfinal |].
  intros w'. rewrite Hfinal. unfold handleBulkSend.
  cbn [inputFile bulkMessage].
  destruct (truthyProp (sessionId props)); reflexivity.
Qed.

(** C7 (amended). [sendMessage] never raises: whatever the remote call
    does, it returns a result. It returns success when the call completes
    with an ok status. It returns a failure whose reason is the error message
    when the address cannot be built, the call is rejected or the body cannot
    be read; when the remote answers with a status that is not ok the reason
    is the response body if that is not empty, and the fixed text
    [Unknown error] if it is empty. *)
Theorem sendMessage_outcome (number message : list N) (w : World) :
  let endpoint := VITE_API_URL ++ str "/api/bulksend" in
  let result := resultOf (send number message w) in
  (exists res, result = Ok res)
  /\ (forall e, new_URL endpoint = Throw e -> result = Ok (failure e))
  /\ (forall u, new_URL endpoint = Ok u ->
      let answer := fst (fetch (bulksendRequest props u number message) w) in
      (forall e, answer = Throw e -> result = Ok (failure e))
      /\ (forall resp e, answer = Ok resp -> text resp = Throw e ->
          result = Ok (failure e))
      /\ (forall resp body, answer = Ok resp -> text resp = Ok body ->
          ok resp = true -> result = Ok succeeded)
      /\ (forall resp body, answer = Ok resp -> text resp = Ok body ->
          ok resp = false -> body <> [] -> result = Ok (failure body))
      /\ (forall resp, answer = Ok resp -> text resp = Ok [] ->
          ok resp = false -> result = Ok (failure (str "Unknown error")))).
Proof.
  intros endpoint result. subst result.
  unfold sendMessage, bind, try_catch, emit, lift, doFetch, throw, ret,
    resultOf, bulksendRequest.
  fold endpoint.
  destruct (new_URL endpoint) as [u | e0]; cbn [fst snd];
    [destruct (fetch _ w) as [[resp | e1] w'] eqn:Hf; cbn [fst snd];
     [destruct (text resp) as [body | e2] eqn:Ht; cbn [fst snd];
      [destruct (ok resp) eqn:Hok; cbn [negb fst snd] |] |] |];
    (split; [eauto |]);
    (split; [first [discriminate | intros e [= <-]; reflexivity] |]);
    intros u' Hu; simplify_eq; try rewrite Hf; cbn [fst];
    repeat split; intros; simplify_eq;
    repeat match goal with
           | H : text _ = _ |- _ => rewrite H in *; clear H
           end;
    simplify_eq; try reflexivity; try congruence.
  destruct body; [exfalso; auto | reflexivity].
Qed.

(** The validation of [handleBulkSend]: with a prop, the file or the template
    missing, the only effect is the alert. *)
Lemma handleBulkSend_rejected (st : State) (w : World) :
  truthyProp (sessionId props) = false \/ inputFile st = None
  \/ truthyProp (accessToken props) = false
  \/ trim (bulkMessage st) = [] ->
  handle st w = (Ok tt, w, [Alert requiredText]).
Proof.
  unfold handleBulkSend. intros [H | [H | [H | H]]]; rewrite H.
  - reflexivity.
  - destruct (truthyProp (sessionId props)); reflexivity.
  - destruct (truthyProp (sessionId props)),
      (bool_decide (is_Some (inputFile st))); reflexivity.
  - destruct (truthyProp (sessionId props)),
      (bool_decide (is_Some (inputFile st))),
      (truthyProp (accessToken props)); reflexivity.
Qed.

Lemma split_pop (sep : N) (s : list N) : is_Some (pop (split sep s)).
Proof.
  unfold pop. apply last_is_Some.
  induction s as [|c s IH]; simpl; [discriminate |].
  destruct (c =? sep); [discriminate |].
  destruct (split sep s); discriminate.
Qed.

(** With valid inputs and a file whose extension is none of csv, xlsx and
    xls, nothing is dispatched, but the sending flag has been set when the
    alert is raised, and it stays set. *)
Lemma handleBulkSend_unsupported (st : State) (file : File) (w : World) :
  truthyProp (sessionId props) = true ->
  inputFile st = Some file ->
  truthyProp (accessToken props) = true ->
  trim (bulkMessage st) <> [] ->
  extensionOf file <> str "csv" ->
  extensionOf file <> str "xlsx" ->
  extensionOf file <> str "xls" ->
  handle st w = (Ok tt, w, [SetSending true; Alert unsupportedText]).
Proof.
  intros Hs Hf Ha Hm Hcsv Hx Hxs.
  unfold handleBulkSend, parseFile, extensionOf in *.
  rewrite Hs, Hf, Ha. destruct (trim (bulkMessage st)); [congruence |].
  destruct (split_pop 46 (name file)) as [seg Hseg]. rewrite Hseg in *.
  simpl in Hcsv, Hx, Hxs.
  unfold bind, setSending, emit, lift, alert. simpl.
  rewrite !bool_decide_eq_false_2 by assumption. reflexivity.
Qed.

End Properties.

(** ** The worked example and concrete runs *)

(** Three kept rows, three successes: the summary is [(3, [])] and the report
    is the all-sent one. *)
Example all_three_succeed :
  resultOf (sendLoop (str "https://api.example") Ok scripted (fun _ w => w)
              exampleProps (str "Hi {name}") 2 [ann; cid; ann] [ann; cid; ann]
              0 0 [] [answerOk; answerOk; answerOk])
  = Ok (3%nat, []).
Proof. reflexivity. Qed.

(** No kept row: progress [{0, 0}], no dispatch, no delay, the closing
    updates and the report. *)
Example no_valid_row :
  logOf (bulkSendCallback (str "https://api.example") Ok scripted
           (fun _ w => w) exampleProps (exampleState "contacts.csv") [bob] [])
  = SetProgress {| current := 0; total := 0 |} :: closing (summaryText 0 []).
Proof. reflexivity. Qed.

Lemma summary_counts_every_valid_row_witness :
  exists successful failed,
    resultOf (sendLoop (str "https://api.example") Ok scripted (fun _ w => w)
                exampleProps
                (str "Hi {name}") 2 [ann; cid] [ann; cid] 0 0 []
                [answerOk; answerTimeout])
    = Ok (successful, failed)
    /\ (successful + length failed = 2)%nat.
Proof.
  destruct (summary_counts_every_valid_row (str "https://api.example") Ok
              scripted (fun _ w => w) exampleProps (exampleState "contacts.csv")
              [ann; bob; cid] [answerOk; answerTimeout])
    as (su & f & Hres & Hsum & _).
  exists su, f. split; [exact Hres | exact Hsum].
Defined.


Lemma progress_observations_in_order_witness :
  List.filter isProgress (logOf (exampleRun [answerOk; answerTimeout]))
  = [SetProgress {| current := 0; total := 2 |};
     SetProgress {| current := 1; total := 2 |};
     SetProgress {| current := 2; total := 2 |};
     SetProgress {| current := 0; total := 0 |}].
Proof.
  exact (proj1 (progress_observations_in_order
                  (str "https://api.example") Ok scripted
                  (fun _ w => w) exampleProps
                  (exampleState "contacts.csv") [ann; bob; cid]
                  [answerOk; answerTimeout])).
Defined.

(** C3, as stated, fails: in the run of the example, with two kept rows, the
    progress setter is called four times, the first time with [current] 0
    and the last with [{0, 0}]. *)
Lemma progress_observations_counterexample : ~ progressObservedTotalTimes.
Proof.
  intros H.
  specialize (H (list (outcome Response)) (str "https://api.example") Ok
                scripted (fun _ w => w) exampleProps
                (exampleState "contacts.csv") [ann; bob; cid]
                [answerOk; answerTimeout]).
  discriminate H.
Qed.

Lemma delays_between_dispatches_witness :
  List.filter (fun e => isDispatch e || isSleep e)
    (logOf (exampleRun [answerOk; answerTimeout]))
  = [Dispatch (str "111") (str "Hi Ann"); Sleep 2000;
     Dispatch (str "222") (str "Hi Cid")].
Proof.
  exact (proj1 (delays_between_dispatches
                  (str "https://api.example") Ok scripted (fun _ w => w)
                  exampleProps (exampleState "contacts.csv") [ann; bob; cid]
                  [answerOk; answerTimeout])).
Defined.

Lemma failed_numbers_in_dispatch_order_witness :
  exists successful,
    resultOf (sendLoop (str "https://api.example") Ok scripted (fun _ w => w)
                exampleProps
                (str "Hi {name}") 2 [ann; cid] [ann; cid] 0 0 []
                [answerOk; answerTimeout])
    = Ok (successful, [str "222"]).
Proof.
  destruct (failed_numbers_in_dispatch_order (str "https://api.example") Ok
              scripted (fun _ w => w) exampleProps (exampleState "contacts.csv")
              [ann; bob; cid] [answerOk; answerTimeout])
    as (su & f & Hres & Hf & _).
  exists su. subst f. exact Hres.
Defined.

Lemma completion_resets_file_template_and_progress_witness :
  reduce (exampleState "contacts.csv")
    (logOf (exampleRun [answerOk; answerTimeout]))
  = {| inputFile := None; bulkMessage := []; sending := false;
       delaySeconds := 2; progress := {| current := 0; total := 0 |} |}.
Proof.
  exact (proj1 (proj2 (completion_resets_file_template_and_progress
                         (str "https://api.example") Ok scripted
                         (fun _ w => w) (fun _ => None) (fun _ => None)
                         exampleProps
                         (exampleState "contacts.csv")
                         (exampleState "contacts.csv") [ann; bob; cid]
                         [answerOk; answerTimeout]))).
Defined.

(** A status that is not ok with an empty body: the reason is the fixed
    text. *)
Lemma sendMessage_outcome_witness :
  resultOf (sendMessage (str "https://api.example") Ok scripted exampleProps
              (str "111") (str "Hi Ann") [answerEmptyError])
  = Ok (failure (str "Unknown error")).
Proof.
  destruct (sendMessage_outcome (str "https://api.example") Ok scripted
              exampleProps (str "111") (str "Hi Ann") [answerEmptyError])
    as (_ & _ & H).
  destruct (H (str "https://api.example/api/bulksend") eq_refl)
    as (_ & _ & _ & _ & Hempty).
  exact (Hempty {| ok := false; text := Ok [] |} eq_refl eq_refl eq_refl).
Defined.

(** C7, as stated, fails: for a status that is not ok with an empty body the
    reason is not the response body. *)
Lemma sendMessage_reason_counterexample : ~ failureReasonIsBody.
Proof.
  intros H.
  specialize (H (list (outcome Response)) (str "https://api.example") Ok
                scripted exampleProps (str "111") (str "Hi Ann")
                [answerEmptyError] (str "https://api.example/api/bulksend")
                {| ok := false; text := Ok [] |} [] eq_refl eq_refl eq_refl
                eq_refl).
  discriminate H.
Qed.

(** C8 at a file named contacts.txt, with session id, access token and
    template present: nothing is dispatched, and the sending flag is set
    before the alert and is still set afterwards. *)
Theorem unsupported_file_leaves_sending_set :
  forall (World : Type) (api : list N) (new_URL : list N -> outcome (list N))
         (fetch : Request -> World -> outcome Response * World)
         (elapse : Z -> World -> World)
         (csv xlsx : File -> option (list Row)) (w : World),
    let st := exampleState "contacts.txt" in
    let r := handleBulkSend api new_URL fetch elapse csv xlsx exampleProps
               st w in
    r = (Ok tt, w, [SetSending true; Alert unsupportedText])
    /\ sending st = false
    /\ sending (reduce st (logOf r)) = true.
Proof.
  intros World api new_URL fetch elapse csv xlsx w st r.
  assert (Hr : r = (Ok tt, w, [SetSending true; Alert unsupportedText])).
  { apply (handleBulkSend_unsupported api new_URL fetch elapse csv xlsx
             exampleProps
             st {| name := str "contacts.txt"; content := [] |} w);
      first [reflexivity | discriminate]. }
  split; [exact Hr |]. rewrite Hr. split; reflexivity.
Qed.

(** ** Further properties of the template renderer *)

Lemma noPlaceholder_cons_text (c : N) (text x : list N) :
  noPlaceholder text = true ->
  matchAt (c :: text ++ lbrace :: x) = None ->
  noPlaceholder (c :: text) = true.
Proof.
  intros Ht Hm. cbn [noPlaceholder].
  change (c :: text ++ lbrace :: x) with ((c :: text) ++ lbrace :: x) in Hm.
  rewrite matchAt_app_lbrace in Hm. rewrite Hm. exact Ht.
Qed.

Lemma fill_plainPieces (data : Row) (pieces : list (list N * list N))
    (rest : list N) :
  plainPieces pieces rest ->
  replacePlaceholders (flattenTemplate pieces rest) data
  = fillTemplate data pieces rest.
Proof.
  intros [Hp Hr]. induction Hp as [|[text name] pieces [Ht Hn] _ IH].
  - apply replaceFrom_noPlaceholder, Hr.
  - cbn [flattenTemplate fillTemplate fst snd] in *.
    rewrite replacePlaceholders_token by assumption.
    rewrite IH. f_equal. apply replaceFrom_noPlaceholder, Ht.
Qed.

Lemma plainPieces_exist (n : nat) :
  forall s, (length s <= n)%nat ->
  exists pieces rest, plainPieces pieces rest /\ s = flattenTemplate pieces rest.
Proof.
  induction n as [|n IH]; intros s Hlen.
  - destruct s; [| simpl in Hlen; lia].
    exists [], []. repeat split. constructor.
  - destruct s as [|c s']; [exists [], []; repeat split; constructor |].
    destruct (matchAt (c :: s')) as [key|] eqn:Hm.
    + apply matchAt_Some in Hm as [Hv [post Hpost]].
      destruct (IH post) as (pieces & rest & [Hp Hr] & ->).
      { apply (f_equal (@length N)) in Hpost. unfold token in Hpost.
        simpl in Hpost, Hlen. rewrite !length_app in Hpost. simpl in Hpost.
        lia. }
      exists (([], key) :: pieces), rest. split; [| exact Hpost].
      split; [| exact Hr]. constructor; [| exact Hp]. split; [reflexivity | exact Hv].
    + destruct (IH s') as (pieces & rest & [Hp Hr] & Hs);
        [simpl in Hlen; lia |].
      destruct pieces as [|[text name] pieces].
      * exists [], (c :: s'). split; [| reflexivity]. split; [constructor |].
        cbn [noPlaceholder]. rewrite Hm. simpl in Hs. subst s'. exact Hr.
      * exists ((c :: text, name) :: pieces), rest.
        split; [| simpl in *; rewrite Hs; reflexivity].
        inversion Hp as [|? ? [Ht Hn] Hp']; subst.
        split; [| exact Hr]. constructor; [| exact Hp'].
        split; [| exact Hn]. cbn [fst].
        apply (noPlaceholder_cons_text c text
                 (name ++ [rbrace] ++ flattenTemplate pieces rest) Ht).
        cbn [flattenTemplate token app] in Hm.
        rewrite <- app_assoc in Hm. exact Hm.
Qed.

(** X1. Every template is text and tokens in turn, and it renders to the same
    text with the field values in the place of the tokens: nothing else is
    changed, and an inserted value is never scanned for tokens again. *)
Theorem replacePlaceholders_fills_pieces (template : list N) (data : Row) :
  exists pieces rest,
    plainPieces pieces rest
    /\ template = flattenTemplate pieces rest
    /\ replacePlaceholders template data = fillTemplate data pieces rest.
Proof.
  destruct (plainPieces_exist (length template) template (le_n _))
    as (pieces & rest & Hp & ->).
  exists pieces, rest. split; [exact Hp |]. split; [reflexivity |].
  apply fill_plainPieces, Hp.
Qed.

Lemma matchAt_braced (inner post : list N) :
  ~ In rbrace inner ->
  ~ validName inner ->
  matchAt (lbrace :: inner ++ rbrace :: post) = None.
Proof.
  intros Hr Hv. destruct (matchAt _) as [key|] eqn:Hm; [| reflexivity].
  exfalso. apply matchAt_Some in Hm as [[Hne Hw] [post' Hpost]].
  unfold token in Hpost. injection Hpost as Hpost. rewrite <- app_assoc in Hpost.
  simpl in Hpost. apply Hv.
  assert (Heq : inner = key).
  { clear Hne Hv. revert key Hw Hpost.
    induction inner as [|c inner IH]; intros [|k key] Hw Hpost; simpl in *.
    - reflexivity.
    - injection Hpost as <- _. inversion Hw as [|? ? Hk _]. discriminate Hk.
    - injection Hpost as -> _. exfalso. apply Hr. left. reflexivity.
    - injection Hpost as -> Hpost. f_equal. inversion Hw; subst.
      apply IH; [intros H; apply Hr; right; exact H | assumption | assumption]. }
  subst inner. split; assumption.
Qed.

(** X2. Braces around text that is not a name of word characters (it is empty or
    holds a space, a hyphen, a dot, ...) are literal text: such a placeholder
    is never filled in, whatever fields the record has. *)
Theorem replacePlaceholders_keeps_invalid_name (inner : list N) (data : Row) :
  ~ In lbrace inner ->
  ~ In rbrace inner ->
  ~ validName inner ->
  replacePlaceholders (lbrace :: inner ++ [rbrace]) data
  = lbrace :: inner ++ [rbrace].
Proof.
  intros Hl Hr Hv. apply replaceFrom_noPlaceholder.
  cbn [noPlaceholder]. rewrite (matchAt_braced inner [] Hr Hv).
  clear Hv. induction inner as [|c inner IH]; [reflexivity |].
  cbn [app noPlaceholder].
  assert (Hc : c <> lbrace) by (intros ->; apply Hl; left; reflexivity).
  replace (matchAt (c :: inner ++ [rbrace])) with (@None (list N)).
  - apply IH; intros H; [apply Hl | apply Hr]; right; exact H.
  - unfold matchAt. destruct (N.eqb_spec c lbrace); [contradiction | reflexivity].
Qed.

Lemma not_validName_first_name : ~ validName (str "first name").
Proof.
  intros [_ H]. rewrite List.Forall_forall in H.
  assert (Hc : isWord 32 = true) by (apply H; simpl; tauto).
  discriminate Hc.
Defined.

Lemma replacePlaceholders_keeps_invalid_name_witness :
  replacePlaceholders (lbrace :: str "first name" ++ [rbrace])
    {[ str "first name" := VStr (str "Ann") ]}
  = lbrace :: str "first name" ++ [rbrace].
Proof.
  apply replacePlaceholders_keeps_invalid_name;
    [ vm_compute; intuition discriminate
    | vm_compute; intuition discriminate
    | exact not_validName_first_name ].
Defined.

(** ** Trimming and the kept rows *)

Lemma trimStart_nil (s : list N) : trimStart s = [] <-> allWhiteSpace s.
Proof.
  unfold allWhiteSpace. induction s as [|c s IH]; simpl.
  - split; [constructor | reflexivity].
  - destruct (isWhiteSpace c) eqn:Hc.
    + rewrite IH. split; [constructor; assumption |].
      intros H. inversion H; assumption.
    + split; [discriminate |]. intros H. inversion H; congruence.
Qed.

(** What [trimStart] leaves starts with a unit that is not white space. *)
Lemma trimStart_head (s : list N) (c : N) (t : list N) :
  trimStart s = c :: t -> isWhiteSpace c = false.
Proof.
  induction s as [|d s IH]; simpl; [discriminate |].
  destruct (isWhiteSpace d) eqn:Hd; [exact IH |].
  intros [= <- _]. exact Hd.
Qed.

Lemma trimStart_fixed (s : list N) :
  (forall c t, s = c :: t -> isWhiteSpace c = false) -> trimStart s = s.
Proof.
  destruct s as [|c t]; [reflexivity |]. intros H. simpl.
  rewrite (H c t eq_refl). reflexivity.
Qed.

Lemma trimStart_split (s : list N) :
  exists ws, s = ws ++ trimStart s /\ allWhiteSpace ws.
Proof.
  unfold allWhiteSpace. induction s as [|c s IH]; simpl.
  - exists []. split; [reflexivity | constructor].
  - destruct (isWhiteSpace c) eqn:Hc.
    + destruct IH as (ws & Hs & Hws). exists (c :: ws).
      split; [simpl; congruence | constructor; assumption].
    + exists []. split; [reflexivity | constructor].
Qed.

Lemma allWhiteSpace_rev (s : list N) : allWhiteSpace (rev s) <-> allWhiteSpace s.
Proof.
  unfold allWhiteSpace. rewrite !List.Forall_forall.
  split; intros H x Hx; apply H.
  - apply in_rev in Hx. exact Hx.
  - apply in_rev. exact Hx.
Qed.

Lemma trim_nil (s : list N) : trim s = [] <-> allWhiteSpace s.
Proof.
  unfold trim, trimEnd. split.
  - intros H. apply (f_equal (@rev N)) in H. rewrite rev_involutive in H.
    simpl in H. apply trimStart_nil in H. apply allWhiteSpace_rev in H.
    destruct (trimStart s) as [|c t] eqn:Hs; [apply trimStart_nil, Hs |].
    apply trimStart_head in Hs. unfold allWhiteSpace in H.
    rewrite ?rev_involutive in H.
    inversion H as [|? ? Hc _]. rewrite Hs in Hc. discriminate Hc.
  - intros H. apply trimStart_nil in H. rewrite H. reflexivity.
Qed.

Lemma trim_shape (s : list N) :
  (forall c t, trim s = c :: t -> isWhiteSpace c = false)
  /\ (forall c t, rev (trim s) = c :: t -> isWhiteSpace c = false).
Proof.
  unfold trim, trimEnd. rewrite rev_involutive. split.
  - intros c t Hc.
    destruct (trimStart_split (rev (trimStart s))) as (ws & Hrev & Hws).
    apply (f_equal (@rev N)) in Hrev.
    rewrite rev_involutive, rev_app_distr, Hc in Hrev.
    apply (trimStart_head s c (t ++ rev ws)). exact Hrev.
  - intros c t Hc. exact (trimStart_head _ c t Hc).
Qed.

Lemma trim_trim (s : list N) : trim (trim s) = trim s.
Proof.
  destruct (trim_shape s) as [Hhead Hlast].
  unfold trim at 1. rewrite (trimStart_fixed (trim s) Hhead).
  unfold trimEnd. rewrite (trimStart_fixed (rev (trim s)) Hlast).
  apply rev_involutive.
Qed.

Lemma not_allWhiteSpace (s : list N) :
  ~ allWhiteSpace s <-> Exists (fun c => isWhiteSpace c = false) s.
Proof.
  unfold allWhiteSpace. induction s as [|c s IH].
  - split; [intros H; exfalso; apply H; constructor | intros H; inversion H].
  - destruct (isWhiteSpace c) eqn:Hc.
    + split.
      * intros H. right. apply IH. intros Hs. apply H. constructor; assumption.
      * intros H Hall. inversion H; subst; [congruence |].
        inversion Hall; subst. apply IH in H1. contradiction.
    + split; [intros _; left; exact Hc |].
      intros _ H. inversion H; congruence.
Qed.

Lemma intToString_visible (z : Z) :
  Exists (fun c => isWhiteSpace c = false) (intToString z).
Proof.
  unfold intToString. destruct (Z.to_int z) as [d | d].
  - destruct d; left; reflexivity.
  - left. reflexivity.
Qed.

(** X3. A row is kept iff the string form of its [number] holds at least one
    unit that is not white space; a numeric or boolean cell always does, the
    empty string, blanks, [null] and a missing column never do. *)
Theorem validRow_iff_visible_number (row : Row) :
  (validRow row = true <->
   exists v s, row !! str "number" = Some v /\ toString v = Ok s
               /\ Exists (fun c => isWhiteSpace c = false) s)
  /\ (forall z, row !! str "number" = Some (VNum z) -> validRow row = true)
  /\ (forall b, row !! str "number" = Some (VBool b) -> validRow row = true)
  /\ (row !! str "number" = None -> validRow row = false)
  /\ (row !! str "number" = Some VNull -> validRow row = false)
  /\ (forall s, row !! str "number" = Some (VStr s) -> allWhiteSpace s ->
      validRow row = false).
Proof.
  assert (Hiff : validRow row = true <->
   exists v s, row !! str "number" = Some v /\ toString v = Ok s
               /\ Exists (fun c => isWhiteSpace c = false) s).
  { rewrite validRow_hasNumber. unfold hasNumber.
    split; intros (v & s & Hv & Hs & H); exists v, s;
      (split; [exact Hv | split; [exact Hs |]]).
    - apply not_allWhiteSpace. rewrite <- trim_nil. exact H.
    - rewrite trim_nil. apply not_allWhiteSpace. exact H. }
  split; [exact Hiff |]. repeat split.
  - intros z Hz. apply Hiff. exists (VNum z), (intToString (int_value z)).
    repeat split; [exact Hz | apply intToString_visible].
  - intros b Hb. apply Hiff. exists (VBool b). destruct b; eexists;
      (repeat split; [exact Hb | left; reflexivity]).
  - intros H. unfold validRow, numberOf, prop.
    rewrite H, inherited_number. reflexivity.
  - intros H. unfold validRow, numberOf, prop. rewrite H. reflexivity.
  - intros s H Hs. unfold validRow, numberOf, prop. rewrite H. simpl.
    apply trim_nil in Hs. rewrite Hs. reflexivity.
Qed.

Lemma validRow_iff_visible_number_witness : validRow bob = false.
Proof.
  apply (proj2 (proj2 (proj2 (proj2 (proj2
           (validRow_iff_visible_number bob))))) [] eq_refl).
  constructor.
Defined.

(** ** Further properties of the dispatch client and the sequencer *)

Section MoreProperties.
Context {World : Type}.
Variable VITE_API_URL : list N.
Variable new_URL : list N -> outcome (list N).
Variable fetch : Request -> World -> outcome Response * World.
Variable elapse : Z -> World -> World.
Variable Papa_parse : File -> option (list Row).
Variable XLSX_parse : File -> option (list Row).
Variable props : Props.

Local Abbreviation send := (sendMessage VITE_API_URL new_URL fetch props).
Local Abbreviation loop :=
  (sendLoop VITE_API_URL new_URL fetch elapse props).
Local Abbreviation callback :=
  (bulkSendCallback VITE_API_URL new_URL fetch elapse props).
Local Abbreviation handle :=
  (handleBulkSend VITE_API_URL new_URL fetch elapse Papa_parse XLSX_parse
     props).
Local Abbreviation endpoint := (VITE_API_URL ++ str "/api/bulksend").

(** The effects of one call of [sendMessage], by what [new URL] does. *)
Lemma sendMessage_wire (number message : list N) (w : World) :
  (forall e, new_URL endpoint = Throw e ->
     send number message w
     = (Ok (failure e), w,
        [Dispatch number message; Returned (failure e)]))
  /\ (forall u, new_URL endpoint = Ok u ->
      exists res,
        send number message w
        = (Ok res, snd (fetch (bulksendRequest props u number message) w),
           [Dispatch number message;
            Fetch (bulksendRequest props u number message);
            Returned res])).
Proof.
  unfold sendMessage, bind, try_catch, emit, lift, doFetch, throw, ret,
    bulksendRequest.
  split.
  - intros e ->. reflexivity.
  - intros u ->. cbn [fst snd].
    destruct (fetch _ w) as [[resp | e1] w']; cbn [fst snd];
      [destruct (text resp) as [body | e2]; cbn [fst snd];
       [destruct (ok resp); cbn [negb fst snd] |] |];
      eexists; reflexivity.
Qed.

(** X5. One call of [sendMessage] makes at most one network call: none when the
    address cannot be built (the world is left as it was), otherwise exactly
    one, a POST to the parsed address with the instance id and the access
    token as query parameters, in this order, and the one recipient in the
    body; there is no second attempt whatever the answer. *)
Theorem sendMessage_single_request (number message : list N) (w : World) :
  (forall e, new_URL endpoint = Throw e ->
     send number message w
     = (Ok (failure e), w,
        [Dispatch number message; Returned (failure e)]))
  /\ (forall u, new_URL endpoint = Ok u ->
      exists res,
        send number message w
        = (Ok res, snd (fetch (bulksendRequest props u number message) w),
           [Dispatch number message;
            Fetch (bulksendRequest props u number message);
            Returned res])).
Proof. exact (sendMessage_wire number message w). Qed.

(** X6. What [sendMessage] returns is either the success without an error
    text or a failure with one. When the remote answered with a status that
    is not ok and its body was read, the text is never empty: it is the body
    or, for an empty body, [Unknown error]. The text of a failure is empty
    only when the error raised by [new URL], by [fetch] or by
    [response.text()] has itself an empty message. *)
Theorem sendMessage_result_shape (number message : list N) (w : World)
    (res : SendResult) :
  resultOf (send number message w) = Ok res ->
  (res = succeeded \/ exists reason, res = failure reason)
  /\ (forall u resp body,
        new_URL endpoint = Ok u ->
        fst (fetch (bulksendRequest props u number message) w) = Ok resp ->
        text resp = Ok body -> ok resp = false ->
        exists reason, res = failure reason /\ reason <> [])
  /\ (res = failure [] ->
      new_URL endpoint = Throw []
      \/ exists u, new_URL endpoint = Ok u
           /\ (fst (fetch (bulksendRequest props u number message) w)
               = Throw []
               \/ exists resp,
                    fst (fetch (bulksendRequest props u number message) w)
                    = Ok resp
                    /\ text resp = Throw [])).
Proof.
  unfold sendMessage, bind, try_catch, emit, lift, doFetch, throw, ret,
    resultOf, bulksendRequest.
  destruct (new_URL endpoint) as [u | e0]; cbn [fst snd];
    [destruct (fetch _ w) as [[resp | e1] w'] eqn:Hf; cbn [fst snd];
     [destruct (text resp) as [body | e2] eqn:Ht; cbn [fst snd];
      [destruct (ok resp) eqn:Hok; cbn [negb fst snd] |] |] |];
    intros [= <-];
    (split; [first [left; reflexivity | right; eexists; reflexivity] |]);
    (split;
     [intros u' resp' body' Hu Hr Hb Ho; simplify_eq;
      try (rewrite Hf in Hr; cbn [fst] in Hr; simplify_eq);
      try congruence;
      eexists; (split; [reflexivity |]); destruct body; discriminate
     |]).
  - discriminate.
  - intros Hres. exfalso. destruct body; discriminate Hres.
  - intros [= ->]. right. exists u. split; [reflexivity |]. right.
    exists resp. rewrite Hf. auto.
  - intros [= ->]. right. exists u. split; [reflexivity |]. left.
    rewrite Hf. reflexivity.
  - intros [= ->]. left. reflexivity.
Qed.

(** One turn of the loop, given what [sendMessage] does for the row. *)
Lemma sendLoop_turn (t : list N) (d : Z) (vr : list Row) (row : Row)
    (rows : list Row) (i su : nat) (f : list (list N)) (w w1 : World)
    (res : SendResult) (l1 : list event) :
  validRow row = true ->
  send (rowNumber row) (replacePlaceholders t row) w = (Ok res, w1, l1) ->
  loop t d vr (row :: rows) i su f w
  = (let r := loop t d vr rows (S i)
                (if success res then S su else su)
                (if success res then f else f ++ [rowNumber row])
                (if (Z.of_nat i <? Z.of_nat (length vr) - 1)%Z
                 then elapse (d * 1000) w1 else w1) in
     (resultOf r, worldOf r,
      SetProgress {| current := i + 1; total := length vr |}
      :: l1 ++ sleepIf d (length vr) i ++ logOf r)).
Proof.
  intros Hv Hsend.
  destruct (sendLoop_cons VITE_API_URL new_URL fetch elapse props
              t d vr row rows i su f w Hv)
    as (res' & w1' & fl & Hsend' & _ & ->).
  rewrite Hsend in Hsend'. injection Hsend' as <- <- ->. reflexivity.
Qed.

Lemma sendLoop_invalid_endpoint (e : list N) (t : list N) (d : Z)
    (vr rows : list Row) :
  new_URL endpoint = Throw e ->
  Forall (fun r => validRow r = true) rows ->
  forall i su f w,
    resultOf (loop t d vr rows i su f w) = Ok (su, f ++ map rowNumber rows)
    /\ List.filter isFetch (logOf (loop t d vr rows i su f w)) = []
    /\ outcomesOf None (logOf (loop t d vr rows i su f w))
       = map (fun row => (rowNumber row, failure e)) rows.
Proof.
  intros He. induction 1 as [|row rows Hrow _ IH]; intros i su f w.
  - simpl. rewrite app_nil_r. repeat split.
  - destruct (sendMessage_wire (rowNumber row)
                (replacePlaceholders t row) w) as [Hsend _].
    rewrite (sendLoop_turn _ _ _ _ _ _ _ _ _ _ _ _ Hrow (Hsend e He)).
    cbv zeta. cbn [success failure].
    destruct (IH (S i) su (f ++ [rowNumber row])
                (if (Z.of_nat i <? Z.of_nat (length vr) - 1)%Z
                 then elapse (d * 1000) w else w)) as (Hres & Hf & Ho).
    unfold resultOf, logOf in *. cbn [fst snd].
    rewrite Hres. split; [rewrite <- app_assoc; reflexivity |].
    cbn [List.filter isFetch app outcomesOf].
    rewrite !List.filter_app, Hf.
    split; [unfold sleepIf; destruct (_ <? _)%Z; reflexivity |].
    assert (Hskip : forall l,
              outcomesOf None (sleepIf d (length vr) i ++ l)
              = outcomesOf None l)
      by (intros l; unfold sleepIf; destruct (_ <? _)%Z; reflexivity).
    rewrite Hskip, Ho. reflexivity.
Qed.

(** X7. With an address that cannot be built ([VITE_API_URL] unset or not a
    URL) a run makes no network call at all and every kept row is reported
    as failed, with the error of the address as the reason. *)
Theorem invalid_endpoint_fails_every_row
  (st : State) (data : list Row) (w : World) (e : list N) :
  new_URL endpoint = Throw e ->
  let validRows := List.filter validRow data in
  let run := loop (bulkMessage st) (delaySeconds st) validRows validRows
               0 0 [] w in
  resultOf run = Ok (0%nat, map rowNumber validRows)
  /\ List.filter isFetch (logOf run) = []
  /\ outcomesOf None (logOf run)
     = map (fun row => (rowNumber row, failure e)) validRows.
Proof.
  intros He validRows run.
  exact (sendLoop_invalid_endpoint e (bulkMessage st) (delaySeconds st)
           validRows validRows He (validRows_valid VITE_API_URL new_URL data) 0%nat 0%nat [] w).
Qed.

Lemma sendLoop_requests (u : list N) (t : list N) (d : Z)
    (vr rows : list Row) :
  new_URL endpoint = Ok u ->
  Forall (fun r => validRow r = true) rows ->
  forall i su f w,
    List.filter isFetch (logOf (loop t d vr rows i su f w))
    = map (requestOf props u t) rows.
Proof.
  intros Hu. induction 1 as [|row rows Hrow _ IH]; intros i su f w;
    [reflexivity |].
  destruct (sendMessage_wire (rowNumber row)
              (replacePlaceholders t row) w) as [_ Hsend].
  destruct (Hsend u Hu) as (res & Hres).
  rewrite (sendLoop_turn _ _ _ _ _ _ _ _ _ _ _ _ Hrow Hres).
  cbv zeta. unfold logOf at 1. cbn [snd List.filter isFetch app map].
  rewrite List.filter_app, IH. f_equal.
  unfold sleepIf. destruct (_ <? _)%Z; reflexivity.
Qed.

(** X8. With an address that can be built, a run makes exactly one network call
    per kept row, in the order of the rows, each carrying the trimmed number
    of its row and the template rendered for it. *)
Theorem one_request_per_valid_row
  (st : State) (data : list Row) (w : World) (u : list N) :
  new_URL endpoint = Ok u ->
  List.filter isFetch (logOf (callback st data w))
  = map (requestOf props u (bulkMessage st)) (List.filter validRow data).
Proof.
  intros Hu.
  destruct (bulkSendCallback_run VITE_API_URL new_URL fetch elapse props
              st data w) as (su & f & _ & _ & ->).
  cbn [List.filter isFetch]. rewrite List.filter_app.
  cbn [closing List.filter isFetch]. rewrite app_nil_r.
  apply sendLoop_requests; [exact Hu | apply (validRows_valid VITE_API_URL new_URL)].
Qed.

Lemma sendMessage_ok (u : list N) (number message : list N) (w : World) :
  new_URL endpoint = Ok u ->
  (forall r w0, exists resp body,
      fst (fetch r w0) = Ok resp /\ ok resp = true /\ text resp = Ok body) ->
  exists w1 l1, send number message w = (Ok succeeded, w1, l1).
Proof.
  intros Hu Hok.
  destruct (Hok (bulksendRequest props u number message) w)
    as (resp & body & Hf & Hk & Ht).
  unfold sendMessage, bind, try_catch, emit, lift, doFetch, throw, ret,
    bulksendRequest in *.
  rewrite Hu. cbn [fst snd].
  destruct (fetch _ w) as [o w']. cbn [fst] in Hf. subst o.
  cbn [fst snd]. rewrite Ht. cbn [fst snd]. rewrite Hk. cbn [negb fst snd].
  eexists _, _. reflexivity.
Qed.

Lemma sendLoop_all_ok (u : list N) (t : list N) (d : Z) (vr rows : list Row) :
  new_URL endpoint = Ok u ->
  (forall r w0, exists resp body,
      fst (fetch r w0) = Ok resp /\ ok resp = true /\ text resp = Ok body) ->
  Forall (fun r => validRow r = true) rows ->
  forall i su f w,
    resultOf (loop t d vr rows i su f w) = Ok ((su + length rows)%nat, f).
Proof.
  intros Hu Hok. induction 1 as [|row rows Hrow _ IH]; intros i su f w.
  - simpl. rewrite Nat.add_0_r. reflexivity.
  - destruct (sendMessage_ok u (rowNumber row) (replacePlaceholders t row) w
                Hu Hok) as (w1 & l1 & Hsend).
    rewrite (sendLoop_turn _ _ _ _ _ _ _ _ _ _ _ _ Hrow Hsend).
    cbv zeta. cbn [success succeeded]. unfold resultOf at 1. cbn [fst].
    rewrite IH. simpl. do 2 f_equal. lia.
Qed.

(** X9. When the address can be built and the remote answers every call with
    an ok status and a readable body, every kept row is counted as sent,
    none is reported as failed, and the report is the all-sent one. *)
Theorem all_ok_sends_every_row
  (st : State) (data : list Row) (w : World) (u : list N) :
  new_URL endpoint = Ok u ->
  (forall r w0, exists resp body,
      fst (fetch r w0) = Ok resp /\ ok resp = true /\ text resp = Ok body) ->
  let validRows := List.filter validRow data in
  resultOf (loop (bulkMessage st) (delaySeconds st) validRows validRows
              0 0 [] w) = Ok (length validRows, [])
  /\ last (logOf (callback st data w))
     = Some (Alert (allSentText (length validRows))).
Proof.
  intros Hu Hok validRows.
  pose proof (sendLoop_all_ok u (bulkMessage st) (delaySeconds st) validRows
                validRows Hu Hok (validRows_valid VITE_API_URL new_URL data) 0%nat 0%nat [] w)
    as Hloop.
  simpl in Hloop. split; [exact Hloop |].
  destruct (bulkSendCallback_run VITE_API_URL new_URL fetch elapse props
              st data w) as (su & f & Hres & _ & ->).
  fold validRows in Hres. rewrite Hloop in Hres. injection Hres as <- <-.
  rewrite app_comm_cons. apply closing_last.
Qed.

(** X10. With no kept row (no rows at all, or none with a number) nothing is
    dispatched, nothing is waited for and the world is left as it was; the
    form is reset all the same and the report is the all-sent one, for 0
    contacts. *)
Theorem no_valid_row_reports_all_sent
  (st : State) (data : list Row) (w : World) :
  List.filter validRow data = [] ->
  callback st data w
  = (Ok tt, w,
     SetProgress {| current := 0; total := 0 |} :: closing (allSentText 0)).
Proof.
  intros H. unfold bulkSendCallback. rewrite H. reflexivity.
Qed.

Lemma callback_dispatches (st : State) (data : list Row) (w : World) :
  List.filter isDispatch (logOf (callback st data w))
  = map (dispatchOf (bulkMessage st)) (List.filter validRow data).
Proof.
  destruct (bulkSendCallback_run VITE_API_URL new_URL fetch elapse props
              st data w) as (su & f & _ & _ & ->).
  cbn [List.filter isDispatch]. rewrite List.filter_app.
  cbn [closing List.filter isDispatch]. rewrite app_nil_r.
  rewrite <- (filter_filter_weaken (fun e => isProgress e || isDispatch e)
                isDispatch)
    by (intros x Hx; rewrite Hx; apply orb_true_r).
  rewrite (LoopLog_attempts _ _ _ _ _ _
             (sendLoop_log VITE_API_URL new_URL fetch elapse props
                (bulkMessage st) (delaySeconds st)
                (List.filter validRow data) (List.filter validRow data)
                (validRows_valid VITE_API_URL new_URL data) 0 0 [] w)).
  apply attemptsFrom_dispatch.
Qed.

(** X4. Whatever is dispatched in a run is dispatched for a row of the input,
    with the template rendered for that row and with a number that is not
    empty and has no white space at either end. *)
Theorem dispatched_numbers_are_trimmed
  (st : State) (data : list Row) (w : World) (number message : list N) :
  In (Dispatch number message) (logOf (callback st data w)) ->
  number <> [] /\ trim number = number
  /\ exists row, In row data /\ number = rowNumber row
                 /\ message = replacePlaceholders (bulkMessage st) row.
Proof.
  intros Hin.
  assert (Hd : In (Dispatch number message)
                 (List.filter isDispatch (logOf (callback st data w))))
    by (apply List.filter_In; split; [exact Hin | reflexivity]).
  rewrite callback_dispatches in Hd. apply List.in_map_iff in Hd.
  destruct Hd as (row & Heq & Hrow). apply List.filter_In in Hrow.
  destruct Hrow as [Hrow Hv]. unfold dispatchOf in Heq.
  injection Heq as <- <-.
  destruct (validRow_number row Hv) as (s & _ & Hn & Hne).
  unfold rowNumber. rewrite Hn. cbn [default].
  change (default [] (Some (trim s))) with (trim s).
  split; [exact Hne |]. split; [apply trim_trim |].
  exists row. unfold rowNumber. rewrite Hn. auto.
Qed.

End MoreProperties.

Lemma dispatched_numbers_are_trimmed_witness :
  str "555 0100" <> [] /\ trim (str "555 0100") = str "555 0100".
Proof.
  destruct (dispatched_numbers_are_trimmed (str "https://api.example") Ok
              scripted (fun _ w => w) exampleProps
              (exampleState "contacts.csv") [paddedRow] [answerOk]
              (str "555 0100") (str "Hi Dee")) as (H1 & H2 & _).
  - vm_compute. tauto.
  - split; assumption.
Defined.

Lemma sendMessage_single_request_witness :
  sendMessage (str "not a url") (fun _ => Throw (str "Invalid URL")) scripted
    exampleProps (str "111") (str "Hi Ann") [answerOk]
  = (Ok (failure (str "Invalid URL")), [answerOk],
     [Dispatch (str "111") (str "Hi Ann");
      Returned (failure (str "Invalid URL"))]).
Proof.
  exact (proj1 (sendMessage_single_request (str "not a url")
                  (fun _ => Throw (str "Invalid URL")) scripted exampleProps
                  (str "111") (str "Hi Ann") [answerOk])
           (str "Invalid URL") eq_refl).
Defined.

Lemma invalid_endpoint_fails_every_row_witness :
  resultOf (sendLoop (str "not a url") (fun _ => Throw (str "Invalid URL"))
              scripted (fun _ w => w) exampleProps (str "Hi {name}") 2
              [ann; cid] [ann; cid] 0 0 [] [answerOk; answerOk])
  = Ok (0%nat, [str "111"; str "222"]).
Proof.
  exact (proj1 (invalid_endpoint_fails_every_row (str "not a url")
                  (fun _ => Throw (str "Invalid URL")) scripted
                  (fun _ w => w) exampleProps (exampleState "contacts.csv")
                  [ann; bob; cid] [answerOk; answerOk] (str "Invalid URL")
                  eq_refl)).
Defined.

Lemma one_request_per_valid_row_witness :
  List.filter isFetch (logOf (exampleRun [answerOk; answerTimeout]))
  = [requestOf exampleProps (str "https://api.example/api/bulksend")
       (str "Hi {name}") ann;
     requestOf exampleProps (str "https://api.example/api/bulksend")
       (str "Hi {name}") cid].
Proof.
  exact (one_request_per_valid_row (str "https://api.example") Ok scripted
           (fun _ w => w) exampleProps (exampleState "contacts.csv")
           [ann; bob; cid] [answerOk; answerTimeout]
           (str "https://api.example/api/bulksend") eq_refl).
Defined.

Lemma all_ok_sends_every_row_witness :
  resultOf (sendLoop (str "https://api.example") Ok
              (fun (_ : Request) (w : unit) => (answerOk, w)) (fun _ w => w)
              exampleProps (str "Hi {name}") 2 [ann; cid] [ann; cid]
              0 0 [] tt)
  = Ok (2%nat, []).
Proof.
  refine (proj1 (all_ok_sends_every_row (str "https://api.example") Ok
                   (fun (_ : Request) (w : unit) => (answerOk, w))
                   (fun _ w => w) exampleProps (exampleState "contacts.csv")
                   [ann; bob; cid] tt
                   (str "https://api.example/api/bulksend") eq_refl _)).
  intros r w0. exists {| ok := true; text := Ok [] |}, [].
  repeat split.
Defined.

Lemma no_valid_row_reports_all_sent_witness :
  logOf (bulkSendCallback (str "https://api.example") Ok scripted
           (fun _ w => w) exampleProps (exampleState "contacts.csv")
           [bob] [answerOk])
  = SetProgress {| current := 0; total := 0 |} :: closing (allSentText 0).
Proof.
  exact (f_equal logOf
           (no_valid_row_reports_all_sent (str "https://api.example") Ok
              scripted (fun _ w => w) exampleProps
              (exampleState "contacts.csv") [bob] [answerOk] eq_refl)).
Defined.

Lemma sendMessage_result_shape_witness :
  exists reason,
    failure (str "Unknown error") = failure reason /\ reason <> [].
Proof.
  exact (proj1 (proj2 (sendMessage_result_shape (str "https://api.example") Ok
                         scripted exampleProps (str "111") (str "Hi Ann")
                         [answerEmptyError]
                         (failure (str "Unknown error")) eq_refl))
           (str "https://api.example/api/bulksend")
           {| ok := false; text := Ok [] |} [] eq_refl eq_refl eq_refl
           eq_refl).
Defined.

(** ** Further properties of the form handlers *)

Lemma split_no_separator (sep : N) (s : list N) :
  ~ In sep s -> split sep s = [s].
Proof.
  induction s as [|c s IH]; intros Hs; [reflexivity |].
  simpl. destruct (N.eqb_spec c sep) as [-> | Hc].
  - exfalso. apply Hs. left. reflexivity.
  - rewrite IH; [reflexivity |]. intros H. apply Hs. right. exact H.
Qed.

Lemma split_last_segment (sep : N) (base ext : list N) :
  ~ In sep ext ->
  exists p front, split sep (base ++ sep :: ext) = (p :: front) ++ [ext].
Proof.
  intros He. induction base as [|c base (p & front & IH)]; simpl.
  - rewrite N.eqb_refl, (split_no_separator sep ext He).
    exists [], []. reflexivity.
  - rewrite IH. destruct (c =? sep).
    + exists [], (p :: front). reflexivity.
    + exists (c :: p), front. reflexivity.
Qed.

(** X11. The extension [parseFile] looks at is the text after the last dot of
    the file name, whatever its case; a name without a dot is its own
    extension (a file named [csv] is read as CSV). *)
Theorem extension_is_after_last_dot (base ext cont : list N) :
  ~ In 46 ext ->
  extensionOf {| name := base ++ 46 :: ext; content := cont |}
  = toLowerCase ext
  /\ extensionOf {| name := ext; content := cont |} = toLowerCase ext.
Proof.
  intros He. unfold extensionOf, pop. cbn [name]. split.
  - destruct (split_last_segment 46 base ext He) as (p & front & ->).
    rewrite last_snoc. reflexivity.
  - rewrite (split_no_separator 46 ext He). reflexivity.
Qed.

Lemma extension_is_after_last_dot_witness :
  extensionOf {| name := str "my.contacts.XLSX"; content := [] |} = str "xlsx".
Proof.
  refine (proj1 (extension_is_after_last_dot (str "my.contacts") (str "XLSX")
                   [] _)).
  simpl. intuition discriminate.
Defined.

Section FormProperties.
Context {World : Type}.
Variable VITE_API_URL : list N.
Variable new_URL : list N -> outcome (list N).
Variable fetch : Request -> World -> outcome Response * World.
Variable elapse : Z -> World -> World.
Variable Papa_parse : File -> option (list Row).
Variable XLSX_parse : File -> option (list Row).
Variable props : Props.

Local Abbreviation callback :=
  (bulkSendCallback VITE_API_URL new_URL fetch elapse props).
Local Abbreviation handle :=
  (handleBulkSend VITE_API_URL new_URL fetch elapse Papa_parse XLSX_parse
     props).
Local Abbreviation act :=
  (perform VITE_API_URL new_URL fetch elapse Papa_parse XLSX_parse props).
Local Abbreviation play :=
  (session VITE_API_URL new_URL fetch elapse Papa_parse XLSX_parse props).

(** With the four inputs present the handler goes on to [parseFile]. *)
Lemma handleBulkSend_accepted (st : State) (file : File) (w : World) :
  truthyProp (sessionId props) = true ->
  inputFile st = Some file ->
  truthyProp (accessToken props) = true ->
  trim (bulkMessage st) <> [] ->
  handle st w
  = (let r := parseFile Papa_parse XLSX_parse file (callback st) w in
     (resultOf r, worldOf r, SetSending true :: logOf r)).
Proof.
  intros Hs Hf Ha Hm. unfold handleBulkSend.
  rewrite Hs, Hf, Ha. destruct (trim (bulkMessage st)); [congruence |].
  rewrite (bool_decide_eq_true_2 (is_Some (Some file)))
    by (eexists; reflexivity).
  cbn [negb orb truthy]. unfold bind, setSending, emit.
  destruct (parseFile _ _ file _ w) as [[o w'] lg]. reflexivity.
Qed.

Lemma bind_lift_Ok {A B} (a : A) (k : A -> M World B) (w : World) :
  bind (lift (Ok a)) k w = k a w.
Proof.
  unfold bind, lift. destruct (k a w) as [[o w'] lg]. reflexivity.
Qed.

Lemma parseFile_cases (file : File) (k : list Row -> M World unit) (w : World) :
  parseFile Papa_parse XLSX_parse file k w
  = if bool_decide (extensionOf file = str "csv") then
      match Papa_parse file with Some data => k data w | None => (Ok tt, w, []) end
    else if bool_decide (extensionOf file = str "xlsx")
            || bool_decide (extensionOf file = str "xls") then
      match XLSX_parse file with Some data => k data w | None => (Ok tt, w, []) end
    else (Ok tt, w, [Alert unsupportedText]).
Proof.
  unfold parseFile, extensionOf.
  destruct (split_pop 46 (name file)) as [seg ->].
  change (default [] (Some seg)) with seg.
  rewrite bind_lift_Ok.
  destruct (bool_decide (toLowerCase seg = str "csv"));
    [destruct (Papa_parse file); reflexivity |].
  destruct (bool_decide (toLowerCase seg = str "xlsx")
            || bool_decide (toLowerCase seg = str "xls"));
    [destruct (XLSX_parse file); reflexivity | reflexivity].
Qed.

(** X12. [handleBulkSend] refuses to start, with the alert as its only effect,
    exactly when the session id or the access token is missing or empty, no
    file is selected, or the template is empty or all white space. *)
Theorem handleBulkSend_rejects_iff (st : State) (w : World) :
  (truthyProp (sessionId props) = false \/ inputFile st = None
   \/ truthyProp (accessToken props) = false
   \/ allWhiteSpace (bulkMessage st))
  <-> handle st w = (Ok tt, w, [Alert requiredText]).
Proof.
  split.
  - intros H.
    apply (handleBulkSend_rejected VITE_API_URL new_URL fetch elapse
             Papa_parse XLSX_parse props).
    rewrite trim_nil. exact H.
  - intros H.
    destruct (truthyProp (sessionId props)) eqn:Hs; [| auto].
    destruct (inputFile st) as [file|] eqn:Hf; [| auto].
    destruct (truthyProp (accessToken props)) eqn:Ha; [| auto].
    destruct (trim (bulkMessage st)) as [|c t] eqn:Hm;
      [right; right; right; apply trim_nil, Hm |].
    exfalso.
    rewrite (handleBulkSend_accepted st file w Hs Hf Ha) in H
      by (rewrite Hm; discriminate).
    cbv zeta in H. discriminate H.
Qed.

(** X13. The button only asks for a non-empty template, the handler for one that
    is not blank: with a template of white space only the button can be
    clicked, and the click is refused with the alert. *)
Theorem blank_template_click_is_refused (st : State) (w : World) :
  sending st = false ->
  bulkMessage st <> [] ->
  allWhiteSpace (bulkMessage st) ->
  buttonDisabled st = false
  /\ act ClickSend st w = (Ok tt, w, [Alert requiredText]).
Proof.
  intros Hs Hne Hw.
  assert (Hb : buttonDisabled st = false).
  { unfold buttonDisabled. rewrite Hs.
    destruct (bulkMessage st); [congruence | reflexivity]. }
  split; [exact Hb |]. cbn [perform]. rewrite Hb.
  apply handleBulkSend_rejected. rewrite trim_nil. auto.
Qed.

Lemma callback_final_state (st0 st : State) (data : list Row) (w : World) :
  reduce st (logOf (callback st0 data w))
  = {| inputFile := None; bulkMessage := []; sending := false;
       delaySeconds := delaySeconds st;
       progress := {| current := 0; total := 0 |} |}.
Proof.
  destruct (bulkSendCallback_run VITE_API_URL new_URL fetch elapse props
              st0 data w) as (su & f & _ & _ & ->).
  unfold reduce. cbn [fold_left]. rewrite fold_left_app.
  cbn [closing fold_left applyEvent].
  cbn [inputFile bulkMessage sending delaySeconds progress]. f_equal.
  pose proof (LoopLog_setters _ _ _ _ _ _
                (sendLoop_log VITE_API_URL new_URL fetch elapse props
                   (bulkMessage st0) (delaySeconds st0)
                   (List.filter validRow data) (List.filter validRow data)
                   (validRows_valid VITE_API_URL new_URL data) 0 0 [] w))
    as Hset.
  destruct (reduce_progress_only _ Hset
              (applyEvent st
                 (SetProgress
                    {| current := 0;
                       total := length (List.filter validRow data) |})))
    as (_ & _ & _ & Hd).
  exact Hd.
Qed.

(** X14. With the four inputs present and a file whose extension is csv
    (parsed by Papa) or xlsx or xls (parsed by XLSX), [handleBulkSend] sets
    the sending flag and runs the sequencer on the rows the parser hands
    over; when the run is over the form is back to no file, an empty
    template, not sending and progress 0 of 0, with the delay kept. *)
Theorem handleBulkSend_runs_parsed_rows
  (st : State) (file : File) (data : list Row) (w : World) :
  truthyProp (sessionId props) = true ->
  inputFile st = Some file ->
  truthyProp (accessToken props) = true ->
  ~ allWhiteSpace (bulkMessage st) ->
  (extensionOf file = str "csv" /\ Papa_parse file = Some data)
  \/ ((extensionOf file = str "xlsx" \/ extensionOf file = str "xls")
      /\ XLSX_parse file = Some data) ->
  handle st w
  = (Ok tt, worldOf (callback st data w),
     SetSending true :: logOf (callback st data w))
  /\ reduce st (logOf (handle st w))
     = {| inputFile := None; bulkMessage := []; sending := false;
          delaySeconds := delaySeconds st;
          progress := {| current := 0; total := 0 |} |}.
Proof.
  intros Hs Hf Ha Hm Hx. rewrite <- trim_nil in Hm.
  assert (Hrun : handle st w
                 = (Ok tt, worldOf (callback st data w),
                    SetSending true :: logOf (callback st data w))).
  { rewrite (handleBulkSend_accepted st file w Hs Hf Ha Hm).
    rewrite parseFile_cases.
    destruct (bulkSendCallback_run VITE_API_URL new_URL fetch elapse props
                st data w) as (su & f & _ & Hok & _).
    destruct Hx as [[He Hp] | [He Hp]].
    - rewrite He, Hp. cbn [bool_decide]. rewrite bool_decide_eq_true_2 by reflexivity.
      cbv zeta. rewrite Hok. reflexivity.
    - rewrite Hp.
      assert (Hcsv : bool_decide (extensionOf file = str "csv") = false)
        by (apply bool_decide_eq_false_2; destruct He as [-> | ->]; discriminate).
      assert (Hxl : bool_decide (extensionOf file = str "xlsx")
                    || bool_decide (extensionOf file = str "xls") = true).
      { destruct He as [He | He]; rewrite He.
        - rewrite bool_decide_eq_true_2 by reflexivity. reflexivity.
        - rewrite (bool_decide_eq_true_2 (str "xls" = str "xls")) by reflexivity.
          apply orb_true_r. }
      rewrite Hcsv, Hxl. cbv zeta. rewrite Hok. reflexivity. }
  split; [exact Hrun |]. rewrite Hrun. cbn [logOf snd].
  unfold reduce. cbn [fold_left].
  change (fold_left applyEvent (logOf (callback st data w))
            (applyEvent st (SetSending true)))
    with (reduce (applyEvent st (SetSending true)) (logOf (callback st data w))).
  rewrite callback_final_state. reflexivity.
Qed.

(** X15. No error handler is registered with either parser: when the parser
    never calls back, the sending flag set before parsing stays set and
    nothing else happens, neither a dispatch nor an alert. *)
Theorem silent_parser_leaves_sending_set
  (st : State) (file : File) (w : World) :
  truthyProp (sessionId props) = true ->
  inputFile st = Some file ->
  truthyProp (accessToken props) = true ->
  ~ allWhiteSpace (bulkMessage st) ->
  (extensionOf file = str "csv" /\ Papa_parse file = None)
  \/ ((extensionOf file = str "xlsx" \/ extensionOf file = str "xls")
      /\ XLSX_parse file = None) ->
  handle st w = (Ok tt, w, [SetSending true])
  /\ sending (reduce st (logOf (handle st w))) = true.
Proof.
  intros Hs Hf Ha Hm Hx. rewrite <- trim_nil in Hm.
  assert (Hrun : handle st w = (Ok tt, w, [SetSending true])).
  { rewrite (handleBulkSend_accepted st file w Hs Hf Ha Hm).
    rewrite parseFile_cases.
    destruct Hx as [[He Hp] | [He Hp]].
    - rewrite He, Hp. rewrite bool_decide_eq_true_2 by reflexivity.
      reflexivity.
    - rewrite Hp.
      assert (Hcsv : bool_decide (extensionOf file = str "csv") = false)
        by (apply bool_decide_eq_false_2; destruct He as [-> | ->]; discriminate).
      assert (Hxl : bool_decide (extensionOf file = str "xlsx")
                    || bool_decide (extensionOf file = str "xls") = true).
      { destruct He as [He | He]; rewrite He.
        - rewrite bool_decide_eq_true_2 by reflexivity. reflexivity.
        - rewrite (bool_decide_eq_true_2 (str "xls" = str "xls")) by reflexivity.
          apply orb_true_r. }
      rewrite Hcsv, Hxl. reflexivity. }
  split; [exact Hrun |]. rewrite Hrun. reflexivity.
Qed.

Lemma handleBulkSend_keeps_delay (st : State) (w : World) :
  delaySeconds (reduce st (logOf (handle st w))) = delaySeconds st.
Proof.
  destruct (truthyProp (sessionId props)) eqn:Hs;
    [| rewrite (handleBulkSend_rejected VITE_API_URL new_URL fetch elapse
                   Papa_parse XLSX_parse props st w) by auto;
       reflexivity].
  destruct (inputFile st) as [file|] eqn:Hf;
    [| rewrite (handleBulkSend_rejected VITE_API_URL new_URL fetch elapse
                   Papa_parse XLSX_parse props st w) by auto;
       reflexivity].
  destruct (truthyProp (accessToken props)) eqn:Ha;
    [| rewrite (handleBulkSend_rejected VITE_API_URL new_URL fetch elapse
                   Papa_parse XLSX_parse props st w) by auto;
       reflexivity].
  destruct (trim (bulkMessage st)) as [|c t] eqn:Hm;
    [rewrite (handleBulkSend_rejected VITE_API_URL new_URL fetch elapse
                Papa_parse XLSX_parse props st w) by auto;
     reflexivity |].
  rewrite (handleBulkSend_accepted st file w Hs Hf Ha)
    by (rewrite Hm; discriminate).
  rewrite parseFile_cases. cbv zeta.
  assert (Hcb : forall data,
            delaySeconds
              (reduce st (SetSending true :: logOf (callback st data w)))
            = delaySeconds st).
  { intros data. unfold reduce. cbn [fold_left].
    change (fold_left applyEvent (logOf (callback st data w))
              (applyEvent st (SetSending true)))
      with (reduce (applyEvent st (SetSending true))
              (logOf (callback st data w))).
    rewrite callback_final_state. reflexivity. }
  destruct (bool_decide (extensionOf file = str "csv"));
    [destruct (Papa_parse file); [apply Hcb | reflexivity] |].
  destruct (bool_decide (extensionOf file = str "xlsx")
            || bool_decide (extensionOf file = str "xls"));
    [destruct (XLSX_parse file); [apply Hcb | reflexivity] | reflexivity].
Qed.

Lemma perform_keeps_delay_nonzero (a : action) (st : State) (w : World) :
  delaySeconds st <> 0%Z ->
  delaySeconds (reduce st (logOf (act a st w))) <> 0%Z.
Proof.
  intros Hd. destruct a as [[file|] | v | parsed |]; cbn [perform].
  - exact Hd.
  - exact Hd.
  - exact Hd.
  - cbn. destruct parsed as [z|]; [| discriminate].
    destruct (Z.eqb_spec z 0); [discriminate | assumption].
  - destruct (buttonDisabled st); [exact Hd |].
    rewrite handleBulkSend_keeps_delay. exact Hd.
Qed.

(** X17. Whatever the operator does with the form, starting from a delay that is
    not 0 (the initial delay is 3), the delay is never 0: an entry of 0 or one
    that is not a number falls back to 3, any other integer, negative ones
    included, is kept, and no other handler touches the delay. *)
Theorem delay_is_never_zero (actions : list action) (st : State) (w : World) :
  delaySeconds st <> 0%Z ->
  delaySeconds (fst (fst (play actions st w))) <> 0%Z.
Proof.
  revert st w. induction actions as [|a actions IH]; intros st w Hd;
    [exact Hd |].
  cbn [session].
  specialize (IH (reduce st (logOf (act a st w))) (worldOf (act a st w))
                (perform_keeps_delay_nonzero a st w Hd)).
  destruct (play actions _ _) as [[st' w'] l]. exact IH.
Qed.

Lemma perform_while_sending (a : action) (st : State) (w : World) :
  sending st = true ->
  worldOf (act a st w) = w
  /\ sending (reduce st (logOf (act a st w))) = true
  /\ Forall quiet (logOf (act a st w)).
Proof.
  intros Hs.
  destruct a as [[file|] | v | parsed |]; cbn [perform].
  - repeat split; [exact Hs |]. repeat constructor; discriminate.
  - repeat split; [exact Hs |]. repeat constructor; discriminate.
  - repeat split; [exact Hs |]. repeat constructor; discriminate.
  - repeat split; [exact Hs |]. repeat constructor; discriminate.
  - unfold buttonDisabled. rewrite Hs. cbn [orb].
    repeat split; [exact Hs | constructor].
Qed.

(** X16. While the sending flag is set, nothing the operator does with the form
    clears it, sends anything or raises an alert: the button is disabled and
    the change handlers leave the flag alone. Only the end of a run clears
    it, so after a file that is refused or never parsed the form stays in
    the sending state. *)
Theorem operator_cannot_clear_sending
  (actions : list action) (st : State) (w : World) :
  sending st = true ->
  sending (fst (fst (play actions st w))) = true
  /\ buttonDisabled (fst (fst (play actions st w))) = true
  /\ snd (fst (play actions st w)) = w
  /\ Forall quiet (snd (play actions st w)).
Proof.
  intros Hs.
  assert (H : sending (fst (fst (play actions st w))) = true
              /\ snd (fst (play actions st w)) = w
              /\ Forall quiet (snd (play actions st w))).
  { revert st w Hs. induction actions as [|a actions IH]; intros st w Hs.
    - repeat split; [exact Hs | constructor].
    - cbn [session].
      destruct (perform_while_sending a st w Hs) as (Hw & Hs' & Hq).
      specialize (IH _ (worldOf (act a st w)) Hs').
      destruct (play actions _ _) as [[st' w'] l].
      cbn [fst snd] in *. destruct IH as (H1 & H2 & H3).
      repeat split; [exact H1 | congruence |].
      apply Forall_app. split; assumption. }
  destruct H as (H1 & H2 & H3). repeat split; try assumption.
  unfold buttonDisabled. rewrite H1. reflexivity.
Qed.

End FormProperties.

Lemma handleBulkSend_rejects_iff_witness :
  handleBulkSend (str "https://api.example") Ok scripted (fun _ w => w)
    (fun _ => None) (fun _ => None)
    {| sessionId := Some []; accessToken := Some (str "tok") |}
    (exampleState "contacts.csv") [answerOk]
  = (Ok tt, [answerOk], [Alert requiredText]).
Proof.
  apply (proj1 (handleBulkSend_rejects_iff (str "https://api.example") Ok
                  scripted (fun _ w => w) (fun _ => None) (fun _ => None)
                  {| sessionId := Some []; accessToken := Some (str "tok") |}
                  (exampleState "contacts.csv") [answerOk])).
  left. reflexivity.
Defined.

Lemma blank_template_click_is_refused_witness :
  buttonDisabled blankState = false
  /\ perform (str "https://api.example") Ok scripted (fun _ w => w)
       (fun _ => None) (fun _ => None) exampleProps ClickSend blankState
       [answerOk]
     = (Ok tt, [answerOk], [Alert requiredText]).
Proof.
  apply (blank_template_click_is_refused (str "https://api.example") Ok
           scripted (fun _ w => w) (fun _ => None) (fun _ => None)
           exampleProps blankState [answerOk]);
    [reflexivity | discriminate | repeat constructor].
Defined.

Lemma not_blank_example : ~ allWhiteSpace (str "Hi {name}").
Proof.
  intros H. inversion H as [|? ? Hc _]. discriminate Hc.
Defined.

Lemma handleBulkSend_runs_parsed_rows_witness :
  reduce (exampleState "Contacts.XLSX")
    (logOf (handleBulkSend (str "https://api.example") Ok scripted
              (fun _ w => w) (fun _ => None) (fun _ => Some [ann; bob; cid])
              exampleProps (exampleState "Contacts.XLSX")
              [answerOk; answerTimeout]))
  = {| inputFile := None; bulkMessage := []; sending := false;
       delaySeconds := 2; progress := {| current := 0; total := 0 |} |}.
Proof.
  refine (proj2 (handleBulkSend_runs_parsed_rows (str "https://api.example")
                   Ok scripted (fun _ w => w) (fun _ => None)
                   (fun _ => Some [ann; bob; cid]) exampleProps
                   (exampleState "Contacts.XLSX")
                   {| name := str "Contacts.XLSX"; content := [] |}
                   [ann; bob; cid] [answerOk; answerTimeout]
                   eq_refl eq_refl eq_refl not_blank_example _)).
  right. split; [left; reflexivity | reflexivity].
Defined.

Lemma silent_parser_leaves_sending_set_witness :
  handleBulkSend (str "https://api.example") Ok scripted (fun _ w => w)
    (fun _ => None) (fun _ => None) exampleProps
    (exampleState "contacts.csv") [answerOk]
  = (Ok tt, [answerOk], [SetSending true]).
Proof.
  refine (proj1 (silent_parser_leaves_sending_set (str "https://api.example")
                   Ok scripted (fun _ w => w) (fun _ => None) (fun _ => None)
                   exampleProps (exampleState "contacts.csv")
                   {| name := str "contacts.csv"; content := [] |} [answerOk]
                   eq_refl eq_refl eq_refl not_blank_example _)).
  left. split; reflexivity.
Defined.

Lemma operator_cannot_clear_sending_witness :
  sending (fst (fst (session (str "https://api.example") Ok scripted
                       (fun _ w => w) (fun _ => Some [ann]) (fun _ => None)
                       exampleProps
                       [ChooseFile
                          (Some {| name := str "contacts.csv"; content := [] |});
                        TypeMessage (str "Hello"); ClickSend]
                       stuckState [answerOk])))
  = true.
Proof.
  apply (operator_cannot_clear_sending (str "https://api.example") Ok scripted
           (fun _ w => w) (fun _ => Some [ann]) (fun _ => None) exampleProps
           [ChooseFile (Some {| name := str "contacts.csv"; content := [] |});
            TypeMessage (str "Hello"); ClickSend]
           stuckState [answerOk]).
  reflexivity.
Defined.

Lemma delay_is_never_zero_witness :
  delaySeconds
    (fst (fst (session (str "https://api.example") Ok scripted
                 (fun _ w => w) (fun _ => Some [ann]) (fun _ => None)
                 exampleProps
                 [TypeDelay (Some 0%Z); TypeDelay None; TypeDelay (Some (-5)%Z)]
                 initialState [answerOk])))
  <> 0%Z.
Proof.
  apply (delay_is_never_zero (str "https://api.example") Ok scripted
           (fun _ w => w) (fun _ => Some [ann]) (fun _ => None) exampleProps
           [TypeDelay (Some 0%Z); TypeDelay None; TypeDelay (Some (-5)%Z)]
           initialState [answerOk]).
  discriminate.
Defined.

(** A numeric cell is dispatched by its decimal digits, and rendered by
    them. *)
Example numeric_cell_in_decimal :
  validRow eve = true
  /\ rowNumber eve = str "919876543210"
  /\ replacePlaceholders (str "{name}: {number}") eve
     = str "Eve: 919876543210".
Proof. repeat split. Qed.
